(** * privval/ipc_client.go: the IPCVal connection supervisor

    A shallow embedding of [IPCVal] (constructor, options, [connect],
    [OnStart], the keep-alive goroutine and [OnStop]) together with the
    properties of its reconnect logic.

    Conventions of the embedding.
    - The receiver [sc *IPCVal] is a record; every method is a computation
      in the monad [M], which threads the receiver together with the part
      of the process state the methods act on (open descriptors, live
      monitor goroutines), can panic, and records the calls made to
      collaborators in the order the source makes them.
    - What the outside world answers during one call (address resolution,
      dial, handshake, liveness probe) is an argument [Env] of the call.
    - [defer e body] runs [e] when [body] returns and when it panics. *)

From Stdlib Require Import ZArith List Bool Lia.
From stdpp Require Import base decidable option gmap strings.
Import ListNotations.

Local Open Scope string_scope.

(** ** Data *)

(** [time.Duration] is an int64 count of nanoseconds. *)
Definition Duration := Z.

(** Go [error] values. The monitor compares against the package-level
    sentinel [ErrUnexpectedResponse]; every other error is kept with its
    message. *)
Inductive error :=
| ErrUnexpectedResponse
| ErrOther (msg : string).

#[global] Instance error_eq_dec : EqDecision error.
Proof. solve_decision. Defined.

(** [err1 == err2] *)
Definition error_eqb (x y : error) : bool :=
  match x, y with
  | ErrUnexpectedResponse, ErrUnexpectedResponse => true
  | ErrOther m1, ErrOther m2 => String.eqb m1 m2
  | _, _ => false
  end.

(** A raw connection returned by [net.DialUnix], identified by its
    descriptor. *)
Definition fd := nat.

(** Modelled from the spec: [newTimeoutConn] is declared outside this file;
    it wraps a raw connection so that the given timeout applies to the reads
    and writes that follow ("a duplex byte channel with per-operation
    read/write deadlines"). The wrapper keeps the raw connection and the
    deadline. *)
Record timeoutConn := newTimeoutConn { tc_conn : fd; tc_timeout : Duration }.

#[global] Instance timeoutConn_eq_dec : EqDecision timeoutConn.
Proof. solve_decision. Defined.

(** A [*RemoteSignerClient] as returned by [NewRemoteSignerClient]: only its
    identity matters here. *)
Definition clientPtr := nat.

(** [chan struct{}] on which nothing is ever sent: it is open or closed. *)
Inductive chanState := ChanOpen | ChanClosed.

(** [*time.Ticker]. *)
Record Ticker := { tk_period : Duration; tk_running : bool }.

(** The part of [cmn.BaseService] the constructor fills in. *)
Record BaseService := { Logger : string; name : string }.

Record IPCVal := {
  baseService : BaseService;
  RemoteSignerClient : option clientPtr;
  addr : string;
  connTimeout : Duration;
  connHeartbeat : Duration;
  conn : option timeoutConn;
  cancelPing : option chanState;
  pingTicker : option Ticker;
}.

(** Field assignments. *)
Definition set_RemoteSignerClient (v : option clientPtr) (sc : IPCVal) : IPCVal :=
  {| baseService := baseService sc; RemoteSignerClient := v; addr := addr sc;
     connTimeout := connTimeout sc; connHeartbeat := connHeartbeat sc;
     conn := conn sc; cancelPing := cancelPing sc; pingTicker := pingTicker sc |}.

Definition set_connTimeout (v : Duration) (sc : IPCVal) : IPCVal :=
  {| baseService := baseService sc; RemoteSignerClient := RemoteSignerClient sc;
     addr := addr sc; connTimeout := v; connHeartbeat := connHeartbeat sc;
     conn := conn sc; cancelPing := cancelPing sc; pingTicker := pingTicker sc |}.

Definition set_connHeartbeat (v : Duration) (sc : IPCVal) : IPCVal :=
  {| baseService := baseService sc; RemoteSignerClient := RemoteSignerClient sc;
     addr := addr sc; connTimeout := connTimeout sc; connHeartbeat := v;
     conn := conn sc; cancelPing := cancelPing sc; pingTicker := pingTicker sc |}.

Definition set_conn (v : option timeoutConn) (sc : IPCVal) : IPCVal :=
  {| baseService := baseService sc; RemoteSignerClient := RemoteSignerClient sc;
     addr := addr sc; connTimeout := connTimeout sc;
     connHeartbeat := connHeartbeat sc; conn := v;
     cancelPing := cancelPing sc; pingTicker := pingTicker sc |}.

Definition set_cancelPing (v : option chanState) (sc : IPCVal) : IPCVal :=
  {| baseService := baseService sc; RemoteSignerClient := RemoteSignerClient sc;
     addr := addr sc; connTimeout := connTimeout sc;
     connHeartbeat := connHeartbeat sc; conn := conn sc;
     cancelPing := v; pingTicker := pingTicker sc |}.

Definition set_pingTicker (v : option Ticker) (sc : IPCVal) : IPCVal :=
  {| baseService := baseService sc; RemoteSignerClient := RemoteSignerClient sc;
     addr := addr sc; connTimeout := connTimeout sc;
     connHeartbeat := connHeartbeat sc; conn := conn sc;
     cancelPing := cancelPing sc; pingTicker := v |}.

(** ** Process state, effects and the monad *)

(** Calls and synchronisation operations, in program order. *)
Inductive Effect :=
| CallResolve (a : string)                    (* net.ResolveUnixAddr("unix", a) *)
| CallDial (a : string)                       (* net.DialUnix("unix", nil, la) *)
| CallHandshake (c : option timeoutConn)      (* NewRemoteSignerClient(sc.conn) *)
| CallPing                                    (* sc.Ping() *)
| CallClose (c : timeoutConn)                 (* sc.conn.Close() *)
| MtxLock | MtxUnlock | MtxRLock | MtxRUnlock (* sc.connMtx *)
| SetConn (c : option timeoutConn)            (* sc.conn = ... *)
| SetClient (p : option clientPtr)            (* sc.RemoteSignerClient = ... *)
| ChanMake | ChanClose                        (* make / close of cancelPing *)
| TickerNew (d : Duration) | TickerStop       (* time.NewTicker / Stop *)
| Spawn                                       (* go func() { ... }() *)
| LogError (msg : string) (err : error)
| LogInfo (msg : string).

#[global] Instance Effect_eq_dec : EqDecision Effect.
Proof. solve_decision. Defined.

Record State := {
  sc : IPCVal;          (* the receiver *)
  open : gset fd;       (* raw connections currently open *)
  monitors : nat;       (* live goroutines running the keep-alive loop *)
}.

Definition with_sc (f : IPCVal -> IPCVal) (s : State) : State :=
  {| sc := f (sc s); open := open s; monitors := monitors s |}.
Definition with_open (f : gset fd -> gset fd) (s : State) : State :=
  {| sc := sc s; open := f (open s); monitors := monitors s |}.
Definition with_monitors (f : nat -> nat) (s : State) : State :=
  {| sc := sc s; open := open s; monitors := f (monitors s) |}.

(** A call returns normally with a value or panics. *)
Inductive Outcome (A : Type) :=
| Done (a : A)
| Panic (msg : string).
Arguments Done {A} a.
Arguments Panic {A} msg.

Record Result (A : Type) := mkResult {
  outcome : Outcome A;
  st : State;
  effs : list Effect;
}.
Arguments mkResult {A} _ _ _.
Arguments outcome {A} _.
Arguments st {A} _.
Arguments effs {A} _.

Definition M (A : Type) : Type := State -> Result A.

Definition ret {A} (a : A) : M A := fun s => mkResult (Done a) s [].

Definition bind {A B} (m : M A) (k : A -> M B) : M B := fun s =>
  match m s with
  | mkResult (Done a) s1 l1 =>
      match k a s1 with
      | mkResult o s2 l2 => mkResult o s2 (l1 ++ l2)
      end
  | mkResult (Panic msg) s1 l1 => mkResult (Panic msg) s1 l1
  end.

Declare Scope go_scope.
Delimit Scope go_scope with go.
Notation "x <- m ; k" := (bind m (fun x => k))
  (at level 100, m at next level, right associativity) : go_scope.
Notation "m ;; k" := (bind m (fun _ => k))
  (at level 100, right associativity) : go_scope.
Local Open Scope go_scope.

Definition panic {A} (msg : string) : M A := fun s => mkResult (Panic msg) s [].
Definition emit (e : Effect) : M unit := fun s => mkResult (Done tt) s [e].
Definition gets {A} (f : IPCVal -> A) : M A := fun s => mkResult (Done (f (sc s))) s [].
Definition modify (f : State -> State) : M unit := fun s => mkResult (Done tt) (f s) [].

(** [defer]: the deferred call runs when the rest of the function returns,
    and also when it panics. *)
Definition defer {A} (e : Effect) (body : M A) : M A := fun s =>
  match body s with
  | mkResult o s1 l1 => mkResult o s1 (l1 ++ [e])
  end.

Definition log_error (msg : string) (err : error) : M unit := emit (LogError msg err).
Definition log_info (msg : string) : M unit := emit (LogInfo msg).

(** What the collaborators answer during one call.  The handshake returns
    a client and an error, and the callers assign both as returned; [Ping]
    is a method of the client, declared with it outside this file: what it
    answers is up to the environment.  On a nil client the method of the
    package dereferences its receiver, which ends the process; the
    environment has no such answer, so the properties below either take
    the answer of [Ping] as a hypothesis or hold whatever it is. *)
Record Env := {
  net_ResolveUnixAddr : string -> option error;
  net_DialUnix : string -> error + fd;
  NewRemoteSignerClient : option timeoutConn -> option clientPtr * option error;
  Ping : option clientPtr -> option error;
}.

(** [net.Conn.Close]: closing an open connection succeeds; closing it again
    reports "use of closed network connection". *)
Definition ErrClosed : error := ErrOther "use of closed network connection".

Definition Close (c : timeoutConn) : M (option error) :=
  emit (CallClose c);;
  fun s =>
    if decide (tc_conn c ∈ open s)
    then mkResult (Done None) (with_open (fun o => o ∖ {[tc_conn c]}) s) []
    else mkResult (Done (Some ErrClosed)) s [].

(** ** The methods of [IPCVal] *)

(** [func (sc *IPCVal) connect() error] *)
Definition connect (e : Env) : M (option error) :=
  a <- gets addr;
  emit (CallResolve a);;
  match net_ResolveUnixAddr e a with
  | Some err => ret (Some err)
  | None =>
      emit (CallDial a);;
      match net_DialUnix e a with
      | inl err => ret (Some err)
      | inr c =>
          modify (with_open (fun o => o ∪ {[c]}));;
          emit MtxLock;;
          defer MtxUnlock
            (tmo <- gets connTimeout;
             emit (SetConn (Some (newTimeoutConn c tmo)));;
             modify (with_sc (set_conn (Some (newTimeoutConn c tmo))));;
             ret None)
      end
  end.

(** [time.NewTicker(d)] panics unless [d] is positive. *)
Definition NewTicker (d : Duration) : M Ticker :=
  emit (TickerNew d);;
  if (d <=? 0)%Z then panic "non-positive interval for NewTicker"
  else ret {| tk_period := d; tk_running := true |}.

(** [go func() { ... }()]: one more goroutine runs the keep-alive loop. *)
Definition spawn : M unit :=
  emit Spawn;;
  modify (with_monitors S).

(** [func (sc *IPCVal) OnStart() error] *)
Definition OnStart (e : Env) : M (option error) :=
  err <- connect e;
  match err with
  | Some er =>
      log_error "OnStart" er;;
      ret (Some er)
  | None =>
      emit MtxRLock;;
      defer MtxRUnlock
        (c <- gets conn;
         emit (CallHandshake c);;
         let '(cl, herr) := NewRemoteSignerClient e c in
         emit (SetClient cl);;
         modify (with_sc (set_RemoteSignerClient cl));;
         match herr with
         | Some er => ret (Some er)
         | None =>
             emit ChanMake;;
             modify (with_sc (set_cancelPing (Some ChanOpen)));;
             hb <- gets connHeartbeat;
             t <- NewTicker hb;
             modify (with_sc (set_pingTicker (Some t)));;
             spawn;;
             ret None
         end)
  end.

(** The two cases of the [select] in the keep-alive loop. *)
Inductive SelectCase :=
| CaseTick       (* <-sc.pingTicker.C *)
| CaseCancel.    (* <-sc.cancelPing *)

#[global] Instance SelectCase_eq_dec : EqDecision SelectCase.
Proof. solve_decision. Defined.

(** How one pass through the body of [for { select { ... } }] ends:
    [continue] / falling out of the [select], or [return]. *)
Inductive LoopCtl := Continue | Return.

Definition stopTicker (sc : IPCVal) : IPCVal :=
  set_pingTicker
    (match pingTicker sc with
     | Some t => Some {| tk_period := tk_period t; tk_running := false |}
     | None => None
     end) sc.

(** One pass through the loop body of the goroutine started by [OnStart],
    for the [select] case that fired. *)
Definition monitorIter (ev : SelectCase) (e : Env) : M LoopCtl :=
  match ev with
  | CaseTick =>
      emit CallPing;;
      cl <- gets RemoteSignerClient;
      match Ping e cl with
      | None => ret Continue
      | Some err =>
          log_error "Ping" err;;
          if error_eqb err ErrUnexpectedResponse then ret Return
          else
            cerr <- connect e;
            match cerr with
            | Some er =>
                log_error "Reconnecting to remote signer failed" er;;
                ret Continue
            | None =>
                emit MtxRLock;;
                c <- gets conn;
                emit (CallHandshake c);;
                let '(ncl, herr) := NewRemoteSignerClient e c in
                emit (SetClient ncl);;
                modify (with_sc (set_RemoteSignerClient ncl));;
                emit MtxRUnlock;;
                match herr with
                | Some er =>
                    log_error "Re-initializing remote signer client failed" er;;
                    emit MtxRLock;;
                    c' <- gets conn;
                    match c' with
                    | Some tc =>
                        cerr' <- Close tc;
                        match cerr' with
                        | Some er' => log_error "error closing connection" er'
                        | None => ret tt
                        end
                    | None => panic "invalid memory address or nil pointer dereference"
                    end;;
                    emit MtxRUnlock;;
                    ret Continue
                | None =>
                    log_info "Re-created connection to remote signer";;
                    ret Continue
                end
            end
      end
  | CaseCancel =>
      emit TickerStop;;
      modify (with_sc stopTicker);;
      ret Return
  end.

(** A receive on [cancelPing] can only complete once the channel is closed
    (nothing is ever sent on it; a nil channel blocks for ever). *)
Definition selectable (ev : SelectCase) (s : State) : bool :=
  match ev with
  | CaseTick => true
  | CaseCancel =>
      match cancelPing (sc s) with Some ChanClosed => true | _ => false end
  end.

(** Delivery of one [select] event to the keep-alive goroutine.  The
    goroutine keeps no state of its own between two passes (it re-reads the
    fields of [sc]), so the live goroutines are a count.  With no live
    goroutine nothing receives the event; a [return] ends the goroutine. *)
Definition monitorStep (ev : SelectCase) (e : Env) : M unit := fun s =>
  match monitors s with
  | O => ret tt s
  | S n =>
      if selectable ev s then
        (ctl <- monitorIter ev e;
         match ctl with
         | Continue => ret tt
         | Return => modify (with_monitors pred)
         end) s
      else ret tt s
  end.

(** [func (sc *IPCVal) OnStop()].  Closing a closed channel panics. *)
Definition OnStop : M unit :=
  cp <- gets cancelPing;
  match cp with
  | None => ret tt
  | Some ChanOpen =>
      emit ChanClose;;
      modify (with_sc (set_cancelPing (Some ChanClosed)))
  | Some ChanClosed => panic "close of closed channel"
  end;;
  emit MtxRLock;;
  defer MtxRUnlock
    (c <- gets conn;
     match c with
     | Some tc =>
         cerr <- Close tc;
         match cerr with
         | Some er => log_error "OnStop" er
         | None => ret tt
         end
     | None => ret tt
     end).

(** ** Construction and options *)

(** [IPCValOption]: a function that sets an optional parameter on the
    instance it is given (a pointer to an [IPCVal] in the source). *)
Definition IPCValOption := IPCVal -> IPCVal.

(** [func IPCValConnTimeout(timeout time.Duration) IPCValOption] *)
Definition IPCValConnTimeout (timeout : Duration) : IPCValOption :=
  fun sc => set_connTimeout timeout sc.

(** [func IPCValHeartbeat(period time.Duration) IPCValOption] *)
Definition IPCValHeartbeat (period : Duration) : IPCValOption :=
  fun sc => set_connHeartbeat period sc.

(** [func NewIPCVal(logger log.Logger, socketAddr string) *IPCVal].  The
    package-level variables [connTimeout] and [connHeartbeat] it copies are
    declared in another file of the package; they are the first two
    arguments here. *)
Definition NewIPCVal (pkg_connTimeout pkg_connHeartbeat : Duration)
    (logger : string) (socketAddr : string) : IPCVal :=
  {| baseService := {| Logger := logger; name := "IPCVal" |};
     RemoteSignerClient := None;
     addr := socketAddr;
     connTimeout := pkg_connTimeout;
     connHeartbeat := pkg_connHeartbeat;
     conn := None;
     cancelPing := None;
     pingTicker := None |}.

(** Modelled from the spec: the package-level variables [connTimeout] and
    [connHeartbeat], which [NewIPCVal] copies into the instance, are
    declared in another file of the package.  The spec says of them:
    "connectTimeout (duration, default nonzero), heartbeatPeriod (duration,
    default nonzero)": two durations, neither of them zero. *)
Record Defaults := {
  default_connTimeout : Duration;
  default_connHeartbeat : Duration;
  default_connTimeout_nonzero : default_connTimeout <> 0%Z;
  default_connHeartbeat_nonzero : default_connHeartbeat <> 0%Z;
}.

(** The process state right after construction. *)
Definition fresh (v : IPCVal) : State :=
  {| sc := v; open := ∅; monitors := 0 |}.

(** ** Runs *)

(** What can happen to an instance: a call of a lifecycle method by the
    host, or a [select] event reaching the keep-alive goroutine. *)
Inductive Call :=
| DoOnStart (e : Env)
| DoOnStop
| DoSelect (ev : SelectCase) (e : Env).

Definition call (c : Call) : M unit :=
  match c with
  | DoOnStart e => _ <- OnStart e; ret tt
  | DoOnStop => OnStop
  | DoSelect ev e => monitorStep ev e
  end.

(** A panic ends the process: the calls that follow do not happen. *)
Fixpoint run (cs : list Call) : M unit :=
  match cs with
  | [] => ret tt
  | c :: cs' => call c;; run cs'
  end.

Definition ticks (evs : list (SelectCase * Env)) : list Call :=
  map (fun p => DoSelect (fst p) (snd p)) evs.

Definition is_OnStart (c : Call) : bool :=
  match c with DoOnStart _ => true | _ => false end.

(** ** Readers running next to the keep-alive goroutine

    The operations of one pass of the loop, as recorded in [effs], are
    replayed one at a time against the two guarded fields and [connMtx],
    interleaved with a reader. *)

Record Shared := {
  sh_conn : option timeoutConn;       (* sc.conn *)
  sh_client : option clientPtr;       (* sc.RemoteSignerClient *)
  sh_writer : bool;                   (* connMtx is held by Lock *)
  sh_readers : nat;                   (* holders of connMtx by RLock *)
}.

Definition shared_of (v : IPCVal) : Shared :=
  {| sh_conn := conn v; sh_client := RemoteSignerClient v;
     sh_writer := false; sh_readers := 0 |}.

(** One operation against the shared part; [None] while it has to wait
    ([sync.RWMutex]: [Lock] waits for the writer and for all readers,
    [RLock] waits for the writer).  Calls and log lines leave the shared
    part alone. *)
Definition exec (op : Effect) (m : Shared) : option Shared :=
  match op with
  | MtxLock =>
      if sh_writer m || negb (Nat.eqb (sh_readers m) 0) then None
      else Some {| sh_conn := sh_conn m; sh_client := sh_client m;
                   sh_writer := true; sh_readers := sh_readers m |}
  | MtxUnlock =>
      Some {| sh_conn := sh_conn m; sh_client := sh_client m;
              sh_writer := false; sh_readers := sh_readers m |}
  | MtxRLock =>
      if sh_writer m then None
      else Some {| sh_conn := sh_conn m; sh_client := sh_client m;
                   sh_writer := sh_writer m; sh_readers := S (sh_readers m) |}
  | MtxRUnlock =>
      Some {| sh_conn := sh_conn m; sh_client := sh_client m;
              sh_writer := sh_writer m; sh_readers := pred (sh_readers m) |}
  | SetConn c =>
      Some {| sh_conn := c; sh_client := sh_client m;
              sh_writer := sh_writer m; sh_readers := sh_readers m |}
  | SetClient p =>
      Some {| sh_conn := sh_conn m; sh_client := p;
              sh_writer := sh_writer m; sh_readers := sh_readers m |}
  | _ => Some m
  end.

(** Modelled from the spec: the reader of the connection/session pair is
    not in this file.  It "acquires shared access, reads the pair, releases
    immediately": [RLock], read [conn], read [RemoteSignerClient],
    [RUnlock].  [rd_pc] counts the operations done. *)
Record Reader := {
  rd_pc : nat;
  rd_conn : option (option timeoutConn);
  rd_client : option (option clientPtr);
}.

Definition reader0 : Reader := {| rd_pc := 0; rd_conn := None; rd_client := None |}.

Record Config := {
  mon : list Effect;    (* operations the goroutine still has to do *)
  rd : Reader;
  mem : Shared;
}.

Inductive Thread := TMonitor | TReader.

Definition step (t : Thread) (cfg : Config) : Config :=
  match t with
  | TMonitor =>
      match mon cfg with
      | [] => cfg
      | op :: rest =>
          match exec op (mem cfg) with
          | Some m' => {| mon := rest; rd := rd cfg; mem := m' |}
          | None => cfg
          end
      end
  | TReader =>
      let r := rd cfg in
      match rd_pc r with
      | 0 =>
          match exec MtxRLock (mem cfg) with
          | Some m' => {| mon := mon cfg; mem := m';
                          rd := {| rd_pc := 1; rd_conn := rd_conn r; rd_client := rd_client r |} |}
          | None => cfg
          end
      | 1 => {| mon := mon cfg; mem := mem cfg;
                rd := {| rd_pc := 2; rd_conn := Some (sh_conn (mem cfg));
                         rd_client := rd_client r |} |}
      | 2 => {| mon := mon cfg; mem := mem cfg;
                rd := {| rd_pc := 3; rd_conn := rd_conn r;
                         rd_client := Some (sh_client (mem cfg)) |} |}
      | 3 =>
          match exec MtxRUnlock (mem cfg) with
          | Some m' => {| mon := mon cfg; mem := m';
                          rd := {| rd_pc := 4; rd_conn := rd_conn r; rd_client := rd_client r |} |}
          | None => cfg
          end
      | _ => cfg
      end
  end.

(** A schedule names the thread that moves next. *)
Definition interleave (sched : list Thread) (cfg : Config) : Config :=
  fold_left (fun c t => step t c) sched cfg.

(** The pair a reader that has finished saw. *)
Definition observed (cfg : Config) : option (option timeoutConn * option clientPtr) :=
  match rd_pc (rd cfg), rd_conn (rd cfg), rd_client (rd cfg) with
  | 4, Some c, Some p => Some (c, p)
  | _, _, _ => None
  end.

(** One timer tick of the goroutine started from [s], against a reader. *)
Definition tick_vs_reader (e : Env) (s : State) : Config :=
  {| mon := effs (monitorIter CaseTick e s); rd := reader0; mem := shared_of (sc s) |}.

(** Every write of [sc.conn] in a sequence of operations happens while
    [connMtx] is held by [Lock]. *)
Fixpoint conn_writes_locked (held : bool) (l : list Effect) : bool :=
  match l with
  | [] => true
  | MtxLock :: l' => conn_writes_locked true l'
  | MtxUnlock :: l' => conn_writes_locked false l'
  | SetConn _ :: l' => held && conn_writes_locked held l'
  | _ :: l' => conn_writes_locked held l'
  end.

(** Replaying the recorded field writes gives the fields at the end. *)
Definition replay_writes (l : list Effect) (v : IPCVal) : IPCVal :=
  fold_left (fun v op =>
    match op with
    | SetConn c => set_conn c v
    | SetClient p => set_RemoteSignerClient p v
    | _ => v
    end) l v.

(** The operations of a pass of the loop that reconnects: the probe fails
    with [err], the dial gives the connection [c1] and the handshake the
    client [s1]. *)
Definition reconnect_ops (a : string) (err : error)
    (c1 : option timeoutConn) (s1 : option clientPtr) : list Effect :=
  [CallPing; LogError "Ping" err;
   CallResolve a; CallDial a; MtxLock; SetConn c1; MtxUnlock;
   MtxRLock; CallHandshake c1; SetClient s1; MtxRUnlock;
   LogInfo "Re-created connection to remote signer"].

(** The reader is between its [RLock] and its [RUnlock]. *)
Definition in_cs (pc : nat) : bool := Nat.leb 1 pc && Nat.leb pc 3.

(** The pairs a reader may end up with while the goroutine replaces
    ([c0], [s0]) by ([c1], [s1]). *)
Definition allowed_pair (c0 c1 : option timeoutConn) (s0 s1 : option clientPtr)
    (p : option timeoutConn * option clientPtr) : Prop :=
  p = (c0, s0) \/ p = (c1, s0) \/ p = (c1, s1).

(** What holds of every configuration reached once the goroutine has done
    [k] of the operations [ops]. *)
Definition reconnect_inv (c0 c1 : option timeoutConn) (s0 s1 : option clientPtr)
    (ops : list Effect) (cfg : Config) : Prop :=
  exists k,
    k <= 12 /\
    mon cfg = skipn k ops /\
    sh_conn (mem cfg) = (if Nat.leb k 5 then c0 else c1) /\
    sh_client (mem cfg) = (if Nat.leb k 9 then s0 else s1) /\
    sh_writer (mem cfg) = (Nat.leb 5 k && Nat.leb k 6) /\
    sh_readers (mem cfg) =
      (if Nat.leb 8 k && Nat.leb k 10 then 1 else 0) +
      (if in_cs (rd_pc (rd cfg)) then 1 else 0) /\
    rd_pc (rd cfg) <= 4 /\
    (in_cs (rd_pc (rd cfg)) = true -> k <> 5 /\ k <> 6) /\
    (rd_pc (rd cfg) = 2 ->
       (rd_conn (rd cfg) = Some c0 /\ k <= 4) \/ rd_conn (rd cfg) = Some c1) /\
    (3 <= rd_pc (rd cfg) ->
       exists p, rd_conn (rd cfg) = Some (fst p) /\ rd_client (rd cfg) = Some (snd p) /\
                 allowed_pair c0 c1 s0 s1 p).

(** ** Scenarios

    Concrete instances and answers of the outside world, used to run the
    methods. *)

(** An environment that gives the same answers whatever it is asked. *)
Definition mkEnv (resolve : option error) (dial : error + fd)
    (handshake : option clientPtr * option error) (probe : option error) : Env :=
  {| net_ResolveUnixAddr := fun _ => resolve;
     net_DialUnix := fun _ => dial;
     NewRemoteSignerClient := fun _ => handshake;
     Ping := fun _ => probe |}.

Definition errResolve : error := ErrOther "unknown network unix".
Definition errDial : error := ErrOther "connect: no such file or directory".
Definition errHandshake : error := ErrOther "error while retrieving public key".
Definition errEOF : error := ErrOther "EOF".

(** Dial and handshake succeed, the signer answers the probe. *)
Definition env_ok (c : fd) (p : clientPtr) : Env :=
  mkEnv None (inr c) (Some p, None) None.
Definition env_resolve_fails : Env :=
  mkEnv (Some errResolve) (inl errDial) (None, Some errHandshake) (Some errEOF).
(** The probe fails with a transient error and the signer cannot be reached. *)
Definition env_dial_fails : Env :=
  mkEnv None (inl errDial) (None, Some errHandshake) (Some errEOF).
(** The signer is reached as [c] but the handshake fails. *)
Definition env_handshake_fails (c : fd) : Env :=
  mkEnv None (inr c) (None, Some errHandshake) (Some errEOF).
(** The probe fails with a transient error; dial and handshake succeed. *)
Definition env_reconnect (c : fd) (p : clientPtr) : Env :=
  mkEnv None (inr c) (Some p, None) (Some errEOF).
(** Answers for a pass that only receives from [cancelPing]. *)
Definition env_ok_cancel : Env := mkEnv None (inr 9) (Some 9, None) None.
(** The signer answers the probe with an unexpected message. *)
Definition env_fatal : Env :=
  mkEnv None (inr 9) (Some 9, None) (Some ErrUnexpectedResponse).

(** An instance with defaults of 3 s and 2 s. *)
Definition sc0 : IPCVal :=
  NewIPCVal 3000000000%Z 2000000000%Z "logger" "/tmp/signer.sock".

(** The same instance once [OnStart] has connected it as descriptor 1 with
    client 7. *)
Definition started : State := st (OnStart (env_ok 1 7) (fresh sc0)).

(** A schedule in which the reader runs between the [Unlock] of [connect]
    and the [RLock] that guards the handshake: the goroutine does its first
    seven operations, the reader its four, the goroutine the rest. *)
Definition schedule_between : list Thread :=
  repeat TMonitor 7 ++ repeat TReader 4 ++ repeat TMonitor 5.

(** ** The discipline of [connMtx] along a sequence of operations *)

(** How the thread that performs the operations holds [connMtx]. *)
Inductive MtxState := MtxFree | MtxW | MtxR.

(** Follows the lock operations of a sequence; [None] when the thread
    locks a mutex it already holds (blocking for ever on a
    [sync.RWMutex]) or unlocks one it does not hold in that mode. *)
Fixpoint mtx_trace (m : MtxState) (l : list Effect) : option MtxState :=
  match l with
  | [] => Some m
  | MtxLock :: l' => match m with MtxFree => mtx_trace MtxW l' | _ => None end
  | MtxUnlock :: l' => match m with MtxW => mtx_trace MtxFree l' | _ => None end
  | MtxRLock :: l' => match m with MtxFree => mtx_trace MtxR l' | _ => None end
  | MtxRUnlock :: l' => match m with MtxR => mtx_trace MtxFree l' | _ => None end
  | _ :: l' => mtx_trace m l'
  end.

(** Every assignment of [sc.conn] is made under [Lock] and every
    assignment of [sc.RemoteSignerClient] under [RLock]. *)
Fixpoint writes_guarded (m : MtxState) (l : list Effect) : bool :=
  match l with
  | [] => true
  | MtxLock :: l' => writes_guarded MtxW l'
  | MtxRLock :: l' => writes_guarded MtxR l'
  | MtxUnlock :: l' => writes_guarded MtxFree l'
  | MtxRUnlock :: l' => writes_guarded MtxFree l'
  | SetConn _ :: l' =>
      match m with MtxW => writes_guarded m l' | _ => false end
  | SetClient _ :: l' =>
      match m with MtxR => writes_guarded m l' | _ => false end
  | _ :: l' => writes_guarded m l'
  end.

(** The fields that hold the configuration of an instance. *)
Definition config_of (v : IPCVal) : BaseService * string * Duration * Duration :=
  (baseService v, addr v, connTimeout v, connHeartbeat v).

(** The period of the ticker of an instance, if it has one. *)
Definition ticker_period (v : IPCVal) : option Duration :=
  match pingTicker v with
  | Some t => Some (tk_period t)
  | None => None
  end.

(** * Properties *)

Lemma closed_not_open (c : fd) (o : gset fd) : c ∉ o ∖ {[c]}.
Proof. rewrite elem_of_difference, elem_of_singleton. tauto. Qed.

Lemma dialled_open (c : fd) (o : gset fd) : c ∈ o ∪ {[c]}.
Proof. rewrite elem_of_union, elem_of_singleton. tauto. Qed.

Lemma error_eqb_transient err :
  err <> ErrUnexpectedResponse -> error_eqb err ErrUnexpectedResponse = false.
Proof. destruct err; [congruence | reflexivity]. Qed.

(** Unfolding of the monad and of the field assignments. *)
Ltac go_unfold :=
  unfold OnStart, OnStop, monitorStep, monitorIter, connect, Close, NewTicker,
    spawn, defer, log_error, log_info, bind, ret, emit, gets, modify, panic,
    with_sc, with_open, with_monitors in *.

Ltac go_cbn := cbn -[union difference singleton elem_of decide] in *.
Ltac go_simpl := go_unfold; go_cbn.

(** ** connect *)

Section Connect.
Variables (s : State) (e : Env).

Lemma connect_resolve_error err :
  net_ResolveUnixAddr e (addr (sc s)) = Some err ->
  connect e s = mkResult (Done (Some err)) s [CallResolve (addr (sc s))].
Proof. intros H. go_simpl. rewrite H. reflexivity. Qed.

Lemma connect_dial_error err :
  net_ResolveUnixAddr e (addr (sc s)) = None ->
  net_DialUnix e (addr (sc s)) = inl err ->
  connect e s =
  mkResult (Done (Some err)) s
    [CallResolve (addr (sc s)); CallDial (addr (sc s))].
Proof. intros H1 H2. go_simpl. rewrite H1. cbn. rewrite H2. reflexivity. Qed.

Lemma connect_ok c :
  net_ResolveUnixAddr e (addr (sc s)) = None ->
  net_DialUnix e (addr (sc s)) = inr c ->
  let tc := newTimeoutConn c (connTimeout (sc s)) in
  connect e s =
  mkResult (Done None)
    {| sc := set_conn (Some tc) (sc s);
       open := open s ∪ {[c]};
       monitors := monitors s |}
    [CallResolve (addr (sc s)); CallDial (addr (sc s));
     MtxLock; SetConn (Some tc); MtxUnlock].
Proof. intros H1 H2. go_simpl. rewrite H1. cbn. rewrite H2. reflexivity. Qed.

(** The three ways a call of [connect] can go. *)
Lemma connect_cases :
  (exists err, connect e s = mkResult (Done (Some err)) s [CallResolve (addr (sc s))])
  \/ (exists err, connect e s =
        mkResult (Done (Some err)) s
          [CallResolve (addr (sc s)); CallDial (addr (sc s))])
  \/ (exists c, connect e s =
        mkResult (Done None)
          {| sc := set_conn (Some (newTimeoutConn c (connTimeout (sc s)))) (sc s);
             open := open s ∪ {[c]};
             monitors := monitors s |}
          [CallResolve (addr (sc s)); CallDial (addr (sc s)); MtxLock;
           SetConn (Some (newTimeoutConn c (connTimeout (sc s)))); MtxUnlock]).
Proof.
  destruct (net_ResolveUnixAddr e (addr (sc s))) as [err|] eqn:Hr.
  - left. exists err. now apply connect_resolve_error.
  - destruct (net_DialUnix e (addr (sc s))) as [err|c] eqn:Hd.
    + right. left. exists err. now apply connect_dial_error.
    + right. right. exists c. now apply connect_ok.
Qed.
End Connect.

(** ** One timer tick of the keep-alive goroutine *)

Section Tick.
Variables (s : State) (e : Env) (n : nat).
Hypothesis Hlive : monitors s = S n.

Lemma tick_alive :
  Ping e (RemoteSignerClient (sc s)) = None ->
  monitorStep CaseTick e s = mkResult (Done tt) s [CallPing].
Proof.
  intros H. unfold monitorStep. rewrite Hlive. go_simpl. rewrite H. reflexivity.
Qed.

Lemma tick_fatal :
  Ping e (RemoteSignerClient (sc s)) = Some ErrUnexpectedResponse ->
  monitorStep CaseTick e s =
  mkResult (Done tt) (with_monitors pred s)
    [CallPing; LogError "Ping" ErrUnexpectedResponse].
Proof.
  intros H. unfold monitorStep. rewrite Hlive. go_simpl. rewrite H. reflexivity.
Qed.

Section Transient.
Variable err : error.
Hypothesis Hping : Ping e (RemoteSignerClient (sc s)) = Some err.
Hypothesis Htransient : err <> ErrUnexpectedResponse.

Lemma tick_connect_failed cerr :
  outcome (connect e s) = Done (Some cerr) ->
  monitorStep CaseTick e s =
  mkResult (Done tt) s
    ([CallPing; LogError "Ping" err] ++ effs (connect e s) ++
     [LogError "Reconnecting to remote signer failed" cerr]).
Proof.
  intros Hc. unfold monitorStep. rewrite Hlive. cbn [selectable].
  unfold monitorIter, bind at 1 2 3 4. cbn [emit gets outcome st effs].
  rewrite Hping. unfold log_error, bind at 1 2. cbn [emit].
  rewrite (error_eqb_transient err Htransient). unfold bind at 1.
  destruct (connect_cases s e) as [[x Hx]|[[x Hx]|[x Hx]]];
    rewrite Hx in Hc |- *; cbn in Hc; try discriminate Hc;
    injection Hc as ->; reflexivity.
Qed.

Lemma tick_handshake_failed c ncl herr :
  net_ResolveUnixAddr e (addr (sc s)) = None ->
  net_DialUnix e (addr (sc s)) = inr c ->
  NewRemoteSignerClient e (Some (newTimeoutConn c (connTimeout (sc s)))) =
    (ncl, Some herr) ->
  let tc := newTimeoutConn c (connTimeout (sc s)) in
  monitorStep CaseTick e s =
  mkResult (Done tt)
    {| sc := set_RemoteSignerClient ncl (set_conn (Some tc) (sc s));
       open := (open s ∪ {[c]}) ∖ {[c]};
       monitors := monitors s |}
    [CallPing; LogError "Ping" err;
     CallResolve (addr (sc s)); CallDial (addr (sc s));
     MtxLock; SetConn (Some tc); MtxUnlock;
     MtxRLock; CallHandshake (Some tc); SetClient ncl; MtxRUnlock;
     LogError "Re-initializing remote signer client failed" herr;
     MtxRLock; CallClose tc; MtxRUnlock].
Proof.
  intros Hr Hd Hh tc. subst tc. unfold monitorStep. rewrite Hlive.
  go_simpl. rewrite Hping. rewrite (error_eqb_transient err Htransient).
  rewrite Hr, Hd. cbn. rewrite Hh. cbn.
  rewrite decide_True by apply dialled_open. rewrite Hlive. reflexivity.
Qed.

Lemma tick_reconnected c ncl :
  net_ResolveUnixAddr e (addr (sc s)) = None ->
  net_DialUnix e (addr (sc s)) = inr c ->
  NewRemoteSignerClient e (Some (newTimeoutConn c (connTimeout (sc s)))) =
    (ncl, None) ->
  let tc := newTimeoutConn c (connTimeout (sc s)) in
  monitorStep CaseTick e s =
  mkResult (Done tt)
    {| sc := set_RemoteSignerClient ncl (set_conn (Some tc) (sc s));
       open := open s ∪ {[c]};
       monitors := monitors s |}
    [CallPing; LogError "Ping" err;
     CallResolve (addr (sc s)); CallDial (addr (sc s));
     MtxLock; SetConn (Some tc); MtxUnlock;
     MtxRLock; CallHandshake (Some tc); SetClient ncl; MtxRUnlock;
     LogInfo "Re-created connection to remote signer"].
Proof.
  intros Hr Hd Hh tc. subst tc. unfold monitorStep. rewrite Hlive.
  go_simpl. rewrite Hping. rewrite (error_eqb_transient err Htransient).
  rewrite Hr, Hd. cbn. rewrite Hh. cbn. rewrite Hlive. reflexivity.
Qed.
End Transient.
End Tick.

(** ** Runs without a live goroutine *)

Lemma monitorStep_no_goroutine ev e s :
  monitors s = 0 -> monitorStep ev e s = mkResult (Done tt) s [].
Proof. intros H. unfold monitorStep. rewrite H. reflexivity. Qed.

Lemma run_ticks_no_goroutine evs s :
  monitors s = 0 -> run (ticks evs) s = mkResult (Done tt) s [].
Proof.
  intros H. induction evs as [|[ev e] evs IH]; [reflexivity|].
  cbn [ticks map run call fst snd]. unfold bind.
  rewrite monitorStep_no_goroutine by assumption.
  cbn [outcome st effs]. fold (ticks evs). rewrite IH. reflexivity.
Qed.

(** Case analysis over every path of a method: the innermost scrutinee
    first. *)
Ltac go_cases :=
  go_simpl;
  repeat (first
    [ progress cbn -[union difference singleton elem_of decide] in *
    | match goal with
      | |- context [match ?x with _ => _ end] =>
          lazymatch x with
          | context [match _ with _ => _ end] => fail
          | _ => destruct x eqn:?
          end
      end ]).

Lemma tick_effects_no_TickerStop e s :
  ~ In TickerStop (effs (monitorStep CaseTick e s)).
Proof.
  go_cases; intros HIn; cbn in HIn;
    repeat (destruct HIn as [HIn|HIn]; [discriminate HIn|]); exact HIn.
Qed.

Lemma lifecycle_effects_no_TickerStop e s :
  ~ In TickerStop (effs (OnStart e s)) /\ ~ In TickerStop (effs (OnStop s)).
Proof.
  split; go_cases; intros HIn; cbn in HIn;
    repeat (destruct HIn as [HIn|HIn]; [discriminate HIn|]); exact HIn.
Qed.

Lemma OnStop_monitors s : monitors (st (OnStop s)) = monitors s.
Proof. go_cases; reflexivity. Qed.

Lemma monitorStep_monitors ev e s :
  monitors (st (monitorStep ev e s)) <= monitors s.
Proof. destruct ev; go_cases; lia. Qed.

Lemma OnStart_monitors e s :
  monitors (st (OnStart e s)) <= S (monitors s).
Proof. go_cases; lia. Qed.

(** ** Claims about [connect] and the keep-alive loop *)

(** C5: a call of [connect] that cannot resolve or reach the endpoint
    returns that error and leaves the receiver (its [conn] included) as it
    was; a call that succeeds stores [newTimeoutConn(conn, sc.connTimeout)]
    in [conn] between [connMtx.Lock] and [connMtx.Unlock]; and no call of
    [connect] performs the handshake or assigns [RemoteSignerClient]. *)
Theorem connect_contract (s : State) (e : Env) :
  let r := connect e s in
  let a := addr (sc s) in
  (forall err, net_ResolveUnixAddr e a = Some err ->
     outcome r = Done (Some err) /\ st r = s)
  /\ (forall err, net_ResolveUnixAddr e a = None -> net_DialUnix e a = inl err ->
     outcome r = Done (Some err) /\ st r = s)
  /\ (forall c, net_ResolveUnixAddr e a = None -> net_DialUnix e a = inr c ->
     let tc := newTimeoutConn c (connTimeout (sc s)) in
     outcome r = Done None /\
     conn (sc (st r)) = Some tc /\
     tc_timeout tc = connTimeout (sc s) /\
     (c ∈ open (st r)) /\
     effs r = [CallResolve a; CallDial a; MtxLock; SetConn (Some tc); MtxUnlock])
  /\ conn_writes_locked false (effs r) = true
  /\ RemoteSignerClient (sc (st r)) = RemoteSignerClient (sc s)
  /\ (forall p, ~ In (SetClient p) (effs r))
  /\ (forall c, ~ In (CallHandshake c) (effs r)).
Proof.
  cbv zeta. repeat split.
  - rewrite (connect_resolve_error s e err) by assumption. reflexivity.
  - rewrite (connect_resolve_error s e err) by assumption. reflexivity.
  - rewrite (connect_dial_error s e err) by assumption. reflexivity.
  - rewrite (connect_dial_error s e err) by assumption. reflexivity.
  - rewrite (connect_ok s e c) by assumption. reflexivity.
  - rewrite (connect_ok s e c) by assumption. reflexivity.
  - rewrite (connect_ok s e c) by assumption. cbn. apply dialled_open.
  - rewrite (connect_ok s e c) by assumption. reflexivity.
  - destruct (connect_cases s e) as [[x Hx]|[[x Hx]|[x Hx]]]; rewrite Hx; reflexivity.
  - destruct (connect_cases s e) as [[x Hx]|[[x Hx]|[x Hx]]]; rewrite Hx; reflexivity.
  - intros p. destruct (connect_cases s e) as [[x Hx]|[[x Hx]|[x Hx]]]; rewrite Hx;
      cbn; intuition discriminate.
  - intros c. destruct (connect_cases s e) as [[x Hx]|[[x Hx]|[x Hx]]]; rewrite Hx;
      cbn; intuition discriminate.
Qed.

(** C1: when [Ping] returns [ErrUnexpectedResponse] on a tick, the only
    keep-alive goroutine logs the error and returns without touching the
    receiver or any connection; whatever ticks or cancellations follow, in
    any number, nothing is probed, dialled or changed any more. *)
Theorem fatal_probe_halts_monitor (s : State) (e : Env)
    (later : list (SelectCase * Env)) :
  monitors s = 1 ->
  Ping e (RemoteSignerClient (sc s)) = Some ErrUnexpectedResponse ->
  let r := monitorStep CaseTick e s in
  outcome r = Done tt /\
  monitors (st r) = 0 /\
  sc (st r) = sc s /\
  open (st r) = open s /\
  effs r = [CallPing; LogError "Ping" ErrUnexpectedResponse] /\
  run (ticks later) (st r) = mkResult (Done tt) (st r) [].
Proof.
  intros Hone Hping r. subst r.
  rewrite (tick_fatal s e 0 Hone Hping). cbn [outcome st effs].
  repeat split.
  - cbn. rewrite Hone. reflexivity.
  - apply run_ticks_no_goroutine. cbn. rewrite Hone. reflexivity.
Qed.

(** C3, as stated, fails in its last clause: after a transient probe
    failure and a failed dial, the next tick probes again, and when that
    probe succeeds it is the whole tick: nothing is resolved or dialled, no
    reconnect is attempted. *)
Lemma no_reconnect_after_healthy_probe :
  let s := started in
  let r := monitorStep CaseTick env_dial_fails s in
  let r' := monitorStep CaseTick (env_ok 5 5) (st r) in
  monitors s = 1 /\
  Ping env_dial_fails (RemoteSignerClient (sc s)) = Some errEOF /\
  outcome (connect env_dial_fails s) = Done (Some errDial) /\
  st r = s /\
  effs r' = [CallPing] /\
  ~ In (CallResolve (addr (sc s))) (effs r') /\
  ~ In (CallDial (addr (sc s))) (effs r').
Proof.
  cbv zeta. repeat split; try reflexivity.
  - vm_compute. intuition discriminate.
  - vm_compute. intuition discriminate.
Qed.

(** C3, amended: when the probe fails with a transient error and the call
    of [connect] that follows fails, the tick leaves [conn] and
    [RemoteSignerClient] (indeed the whole state) exactly as they were and
    the goroutine stays in its loop.  On the next tick it probes again,
    and it calls [connect] again exactly when that probe fails with a
    transient error once more: a probe that succeeds is the whole tick,
    and [ErrUnexpectedResponse] ends the goroutine without a dial. *)
Theorem reconnect_failure_preserves_state (s : State) (e e' : Env) (n : nat)
    (err cerr : error) :
  monitors s = S n ->
  Ping e (RemoteSignerClient (sc s)) = Some err ->
  err <> ErrUnexpectedResponse ->
  outcome (connect e s) = Done (Some cerr) ->
  let r := monitorStep CaseTick e s in
  let r' := monitorStep CaseTick e' (st r) in
  outcome r = Done tt /\
  st r = s /\
  conn (sc (st r)) = conn (sc s) /\
  RemoteSignerClient (sc (st r)) = RemoteSignerClient (sc s) /\
  monitors (st r) = S n /\
  In (LogError "Reconnecting to remote signer failed" cerr) (effs r) /\
  (forall x, ~ In (SetConn x) (effs r)) /\
  (forall x, ~ In (SetClient x) (effs r)) /\
  In CallPing (effs r') /\
  (forall err', Ping e' (RemoteSignerClient (sc s)) = Some err' ->
     err' <> ErrUnexpectedResponse ->
     In (CallResolve (addr (sc s))) (effs r')) /\
  (Ping e' (RemoteSignerClient (sc s)) = None ->
   r' = mkResult (Done tt) s [CallPing]) /\
  (Ping e' (RemoteSignerClient (sc s)) = Some ErrUnexpectedResponse ->
   r' = mkResult (Done tt) (with_monitors pred s)
          [CallPing; LogError "Ping" ErrUnexpectedResponse]).
Proof.
  intros Hlive Hping Htr Hc r r'. subst r' r.
  rewrite (tick_connect_failed s e n Hlive err Hping Htr cerr Hc).
  cbn [outcome st effs].
  assert (Heffs : (forall x, ~ In (SetConn x) (effs (connect e s))) /\
                  (forall x, ~ In (SetClient x) (effs (connect e s)))).
  { destruct (connect_cases s e) as [[y Hy]|[[y Hy]|[y Hy]]];
      rewrite Hy in Hc |- *; cbn in Hc |- *; try discriminate Hc;
      split; intros x; intuition discriminate. }
  destruct Heffs as [Hconn Hclient].
  repeat split; try assumption.
  - apply in_or_app. right. apply in_or_app. right. now left.
  - intros x HIn. cbn in HIn. destruct HIn as [HIn|[HIn|HIn]]; try discriminate.
    apply in_app_or in HIn. destruct HIn as [HIn|HIn].
    + now apply (Hconn x).
    + cbn in HIn. intuition discriminate.
  - intros x HIn. cbn in HIn. destruct HIn as [HIn|[HIn|HIn]]; try discriminate.
    apply in_app_or in HIn. destruct HIn as [HIn|HIn].
    + now apply (Hclient x).
    + cbn in HIn. intuition discriminate.
  - unfold monitorStep. rewrite Hlive. go_simpl.
    destruct (Ping e' (RemoteSignerClient (sc s))) as [err'|]; [|now left].
    destruct (error_eqb err' ErrUnexpectedResponse); [now left|].
    destruct (net_ResolveUnixAddr e' (addr (sc s))); cbn; [now left|].
    destruct (net_DialUnix e' (addr (sc s))); cbn; [now left|].
    destruct (NewRemoteSignerClient e' _) as [? [?|]]; cbn; [|now left].
    destruct (decide _); cbn; now left.
  - intros err' Hping' Htr'.
    unfold monitorStep. rewrite Hlive. go_simpl. rewrite Hping'.
    rewrite (error_eqb_transient err' Htr').
    destruct (net_ResolveUnixAddr e' (addr (sc s))); cbn; [intuition|].
    destruct (net_DialUnix e' (addr (sc s))); cbn; [intuition|].
    destruct (NewRemoteSignerClient e' _) as [? [?|]]; cbn; [|intuition].
    destruct (decide _); cbn; intuition.
  - intros Hping'. apply (tick_alive s e' n Hlive Hping').
  - intros Hping'. apply (tick_fatal s e' n Hlive Hping').
Qed.

Lemma connect_contract_witness :
  outcome (connect env_resolve_fails (fresh sc0)) = Done (Some errResolve)
  /\ outcome (connect env_dial_fails (fresh sc0)) = Done (Some errDial)
  /\ conn (sc (st (connect (env_ok 1 7) (fresh sc0)))) =
     Some (newTimeoutConn 1 3000000000%Z).
Proof.
  split; [|split].
  - pose proof (connect_contract (fresh sc0) env_resolve_fails) as H.
    cbv zeta in H. destruct H as (H & _). apply H. reflexivity.
  - pose proof (connect_contract (fresh sc0) env_dial_fails) as H.
    cbv zeta in H. destruct H as (_ & H & _). apply H; reflexivity.
  - pose proof (connect_contract (fresh sc0) (env_ok 1 7)) as H.
    cbv zeta in H. destruct H as (_ & _ & H & _).
    apply (H 1); reflexivity.
Defined.

Lemma fatal_probe_halts_monitor_witness :
  monitors (st (monitorStep CaseTick env_fatal started)) = 0
  /\ run (ticks [(CaseTick, env_reconnect 2 8); (CaseTick, env_ok 3 9);
                 (CaseCancel, env_fatal)])
       (st (monitorStep CaseTick env_fatal started))
     = mkResult (Done tt) (st (monitorStep CaseTick env_fatal started)) [].
Proof.
  pose proof (fatal_probe_halts_monitor started env_fatal
    [(CaseTick, env_reconnect 2 8); (CaseTick, env_ok 3 9); (CaseCancel, env_fatal)]
    eq_refl eq_refl) as H.
  cbv zeta in H. destruct H as (_ & H1 & _ & _ & _ & H2). split; assumption.
Defined.

Lemma reconnect_failure_preserves_state_witness :
  st (monitorStep CaseTick env_dial_fails started) = started
  /\ In (CallResolve "/tmp/signer.sock")
       (effs (monitorStep CaseTick env_dial_fails
                (st (monitorStep CaseTick env_dial_fails started))))
  /\ monitorStep CaseTick (env_ok 5 5)
       (st (monitorStep CaseTick env_dial_fails started)) =
     mkResult (Done tt) started [CallPing]
  /\ monitorStep CaseTick env_fatal
       (st (monitorStep CaseTick env_dial_fails started)) =
     mkResult (Done tt) (with_monitors pred started)
       [CallPing; LogError "Ping" ErrUnexpectedResponse].
Proof.
  assert (Hne : errEOF <> ErrUnexpectedResponse) by discriminate.
  pose proof (reconnect_failure_preserves_state started env_dial_fails
    env_dial_fails 0 errEOF errDial eq_refl eq_refl Hne eq_refl) as H1.
  pose proof (reconnect_failure_preserves_state started env_dial_fails
    (env_ok 5 5) 0 errEOF errDial eq_refl eq_refl Hne eq_refl) as H2.
  pose proof (reconnect_failure_preserves_state started env_dial_fails
    env_fatal 0 errEOF errDial eq_refl eq_refl Hne eq_refl) as H3.
  cbv zeta in H1, H2, H3.
  destruct H1 as (_ & Hst & _ & _ & _ & _ & _ & _ & _ & Hretry & _).
  destruct H2 as (_ & _ & _ & _ & _ & _ & _ & _ & _ & _ & Hok & _).
  destruct H3 as (_ & _ & _ & _ & _ & _ & _ & _ & _ & _ & _ & Hfatal).
  split; [exact Hst|]. split; [exact (Hretry errEOF eq_refl Hne)|].
  split; [exact (Hok eq_refl) | exact (Hfatal eq_refl)].
Defined.

(** C9: on the tick where [Ping] returns [ErrUnexpectedResponse] the
    goroutine returns without calling [pingTicker.Stop]: the ticker is left
    as it was.  Over all passes of the loop, [Stop] is called exactly on
    the pass that receives from [cancelPing]; [OnStart] and [OnStop] never
    call it. *)
Theorem ticker_stopped_only_on_cancel (s : State) (ev : SelectCase) (e : Env)
    (n : nat) :
  monitors s = S n ->
  let r := monitorStep ev e s in
  (ev = CaseTick ->
   Ping e (RemoteSignerClient (sc s)) = Some ErrUnexpectedResponse ->
   ~ In TickerStop (effs r) /\
   pingTicker (sc (st r)) = pingTicker (sc s) /\
   monitors (st r) = n)
  /\ (In TickerStop (effs r) <->
      ev = CaseCancel /\ cancelPing (sc s) = Some ChanClosed)
  /\ (ev = CaseCancel -> cancelPing (sc s) = Some ChanClosed ->
      effs r = [TickerStop] /\
      sc (st r) = stopTicker (sc s) /\
      monitors (st r) = n)
  /\ ~ In TickerStop (effs (OnStart e s))
  /\ ~ In TickerStop (effs (OnStop s)).
Proof.
  intros Hlive r. subst r.
  split; [|split; [|split; [|apply lifecycle_effects_no_TickerStop]]].
  - intros -> Hping. rewrite (tick_fatal s e n Hlive Hping). cbn.
    rewrite Hlive. repeat split. intuition discriminate.
  - split.
    + intros HIn. destruct ev.
      * exfalso. exact (tick_effects_no_TickerStop e s HIn).
      * split; [reflexivity|].
        unfold monitorStep in HIn. rewrite Hlive in HIn. cbn [selectable] in HIn.
        destruct (cancelPing (sc s)) as [[|]|]; cbn in HIn;
          solve [reflexivity | contradiction].
    + intros [-> Hc]. unfold monitorStep. rewrite Hlive. cbn [selectable].
      rewrite Hc. cbn. now left.
  - intros -> Hc. unfold monitorStep. rewrite Hlive. cbn [selectable].
    rewrite Hc. cbn. rewrite Hlive. repeat split.
Qed.

Lemma ticker_stopped_only_on_cancel_witness :
  ~ In TickerStop (effs (monitorStep CaseTick env_fatal started))
  /\ pingTicker (sc (st (monitorStep CaseTick env_fatal started))) =
     Some {| tk_period := 2000000000%Z; tk_running := true |}
  /\ effs (monitorStep CaseCancel env_ok_cancel (st (OnStop started))) = [TickerStop].
Proof.
  pose proof (ticker_stopped_only_on_cancel started CaseTick env_fatal 0 eq_refl) as H.
  cbv zeta in H. destruct H as (H & _).
  destruct (H eq_refl eq_refl) as (H1 & H2 & _).
  pose proof (ticker_stopped_only_on_cancel (st (OnStop started)) CaseCancel
                env_ok_cancel 0 eq_refl) as H'.
  cbv zeta in H'. destruct H' as (_ & _ & H' & _).
  destruct (H' eq_refl eq_refl) as (H3 & _).
  repeat split; assumption.
Defined.

(** ** Handshake failure during a reconnect *)

(** C2, as stated, fails: [connect] stores the connection it dials in
    [conn] before the handshake is tried.  After a transient probe failure,
    a successful dial (descriptor 2) and a failed handshake, [conn] is the
    new connection, not the one that was there before the attempt. *)
Lemma handshake_failure_replaces_pair :
  let s := started in
  let r := monitorStep CaseTick (env_handshake_fails 2) s in
  monitors s = 1 /\
  Ping (env_handshake_fails 2) (RemoteSignerClient (sc s)) = Some errEOF /\
  outcome (connect (env_handshake_fails 2) s) = Done None /\
  snd (NewRemoteSignerClient (env_handshake_fails 2)
         (conn (sc (st (connect (env_handshake_fails 2) s))))) = Some errHandshake /\
  conn (sc s) = Some (newTimeoutConn 1 3000000000%Z) /\
  conn (sc (st r)) = Some (newTimeoutConn 2 3000000000%Z) /\
  ~ (conn (sc (st r)) = conn (sc s) /\
     RemoteSignerClient (sc (st r)) = RemoteSignerClient (sc s)).
Proof.
  cbv zeta. repeat split; try reflexivity.
  intros [H _]. vm_compute in H. discriminate H.
Qed.

(** C2, amended: when the dial of a reconnect succeeds and the handshake
    fails, the newly dialled connection is closed; [connect] has by then
    stored it in [conn], so [conn] is the new, closed connection and not
    the one from before the attempt.  The configuration, the channel and
    the ticker are untouched, and the pass ends with the goroutine still
    in its loop. *)
Theorem handshake_failure_on_reconnect (s : State) (e : Env) (n : nat)
    (err herr : error) (c : fd) (ncl : option clientPtr) :
  monitors s = S n ->
  Ping e (RemoteSignerClient (sc s)) = Some err ->
  err <> ErrUnexpectedResponse ->
  net_ResolveUnixAddr e (addr (sc s)) = None ->
  net_DialUnix e (addr (sc s)) = inr c ->
  NewRemoteSignerClient e (Some (newTimeoutConn c (connTimeout (sc s)))) =
    (ncl, Some herr) ->
  let tc := newTimeoutConn c (connTimeout (sc s)) in
  let r := monitorStep CaseTick e s in
  outcome r = Done tt /\
  In (CallClose tc) (effs r) /\
  (forall x, In (CallClose x) (effs r) -> x = tc) /\
  (c ∉ open (st r)) /\
  conn (sc (st r)) = Some tc /\
  config_of (sc (st r)) = config_of (sc s) /\
  cancelPing (sc (st r)) = cancelPing (sc s) /\
  pingTicker (sc (st r)) = pingTicker (sc s) /\
  monitors (st r) = S n /\
  In (LogError "Re-initializing remote signer client failed" herr) (effs r).
Proof.
  intros Hlive Hping Htr Hr Hd Hh tc r. subst r tc.
  rewrite (tick_handshake_failed s e n Hlive err Hping Htr c ncl herr Hr Hd Hh).
  cbn [outcome st effs sc open monitors]. repeat split.
  - cbn. tauto.
  - intros x HIn. cbn in HIn.
    repeat (destruct HIn as [HIn|HIn];
            [first [discriminate HIn | injection HIn as <-; reflexivity]|]).
    contradiction.
  - apply closed_not_open.
  - exact Hlive.
  - cbn. tauto.
Qed.

Lemma handshake_failure_on_reconnect_witness :
  let r := monitorStep CaseTick (env_handshake_fails 2) started in
  In (CallClose (newTimeoutConn 2 3000000000%Z)) (effs r) /\
  (2 ∉ open (st r)) /\
  conn (sc (st r)) = Some (newTimeoutConn 2 3000000000%Z) /\
  monitors (st r) = 1.
Proof.
  assert (Hne : errEOF <> ErrUnexpectedResponse) by discriminate.
  pose proof (handshake_failure_on_reconnect started (env_handshake_fails 2) 0
    errEOF errHandshake 2 None eq_refl eq_refl Hne eq_refl eq_refl eq_refl) as H.
  cbv zeta in H |- *. destruct H as (_ & H1 & _ & H2 & H3 & _ & _ & _ & H4 & _).
  repeat split; assumption.
Defined.

(** ** OnStart and OnStop *)

(** C10: when the first dial succeeds and the handshake fails, [OnStart]
    returns the handshake error; the dialled connection is in [conn] and
    still open, [cancelPing] is still nil and no goroutine was started.
    [OnStop] on that instance skips the channel, does not panic, and closes
    the connection. *)
Theorem OnStart_handshake_failure (s : State) (e : Env) (c : fd)
    (cl : option clientPtr) (herr : error) :
  cancelPing (sc s) = None ->
  net_ResolveUnixAddr e (addr (sc s)) = None ->
  net_DialUnix e (addr (sc s)) = inr c ->
  NewRemoteSignerClient e (Some (newTimeoutConn c (connTimeout (sc s)))) =
    (cl, Some herr) ->
  let tc := newTimeoutConn c (connTimeout (sc s)) in
  let r := OnStart e s in
  let r' := OnStop (st r) in
  outcome r = Done (Some herr) /\
  conn (sc (st r)) = Some tc /\
  (c ∈ open (st r)) /\
  (forall x, ~ In (CallClose x) (effs r)) /\
  cancelPing (sc (st r)) = None /\
  pingTicker (sc (st r)) = pingTicker (sc s) /\
  monitors (st r) = monitors s /\
  ~ In Spawn (effs r) /\
  outcome r' = Done tt /\
  ~ In ChanClose (effs r') /\
  effs r' = [MtxRLock; CallClose tc; MtxRUnlock] /\
  c ∉ open (st r').
Proof.
  intros Hcp Hr Hd Hh tc r r'. subst r' r tc.
  assert (HS : OnStart e s =
    mkResult (Done (Some herr))
      {| sc := set_RemoteSignerClient cl
                 (set_conn (Some (newTimeoutConn c (connTimeout (sc s)))) (sc s));
         open := open s ∪ {[c]}; monitors := monitors s |}
      [CallResolve (addr (sc s)); CallDial (addr (sc s)); MtxLock;
       SetConn (Some (newTimeoutConn c (connTimeout (sc s)))); MtxUnlock;
       MtxRLock; CallHandshake (Some (newTimeoutConn c (connTimeout (sc s))));
       SetClient cl; MtxRUnlock]).
  { go_simpl. rewrite Hr. cbn. rewrite Hd. cbn. rewrite Hh. reflexivity. }
  rewrite HS. cbn [outcome st effs].
  assert (HP : OnStop
      {| sc := set_RemoteSignerClient cl
                 (set_conn (Some (newTimeoutConn c (connTimeout (sc s)))) (sc s));
         open := open s ∪ {[c]}; monitors := monitors s |} =
    mkResult (Done tt)
      {| sc := set_RemoteSignerClient cl
                 (set_conn (Some (newTimeoutConn c (connTimeout (sc s)))) (sc s));
         open := (open s ∪ {[c]}) ∖ {[c]}; monitors := monitors s |}
      [MtxRLock; CallClose (newTimeoutConn c (connTimeout (sc s))); MtxRUnlock]).
  { go_simpl. rewrite Hcp. cbn. rewrite decide_True by apply dialled_open. reflexivity. }
  rewrite HP. cbn [outcome st effs sc open monitors].
  repeat split; try assumption.
  - apply dialled_open.
  - intros x HIn. cbn in HIn. intuition discriminate.
  - cbn. intuition discriminate.
  - cbn. intuition discriminate.
  - apply closed_not_open.
Qed.

Lemma OnStart_handshake_failure_witness :
  let r := OnStart (env_handshake_fails 4) (fresh sc0) in
  outcome r = Done (Some errHandshake) /\
  (4 ∈ open (st r)) /\
  outcome (OnStop (st r)) = Done tt /\
  4 ∉ open (st (OnStop (st r))).
Proof.
  pose proof (OnStart_handshake_failure (fresh sc0) (env_handshake_fails 4) 4
    None errHandshake eq_refl eq_refl eq_refl eq_refl) as H.
  cbv zeta in H |- *. destruct H as (H1 & _ & H2 & _ & _ & _ & _ & _ & H3 & _ & _ & H4).
  repeat split; assumption.
Defined.

Lemma call_monitors c s :
  monitors (st (call c s)) <= monitors s + (if is_OnStart c then 1 else 0).
Proof.
  destruct c as [e| |ev e]; cbn [call is_OnStart].
  - unfold bind. pose proof (OnStart_monitors e s) as H.
    destruct (OnStart e s) as [[x|msg] s1 l1]; cbn in *; lia.
  - rewrite OnStop_monitors. lia.
  - pose proof (monitorStep_monitors ev e s). lia.
Qed.

Lemma run_monitors cs s :
  monitors (st (run cs s)) <= monitors s + length (List.filter is_OnStart cs).
Proof.
  revert s. induction cs as [|c cs IH]; intros s; cbn [run List.filter].
  - cbn. lia.
  - unfold bind. pose proof (call_monitors c s) as Hc.
    destruct (call c s) as [[x|msg] s1 l1]; cbn [st] in Hc.
    + specialize (IH s1). destruct (run cs s1) as [o2 s2 l2]. cbn [st] in *.
      destruct (is_OnStart c); cbn [length]; lia.
    + cbn [st]. destruct (is_OnStart c); cbn [length]; lia.
Qed.

(** C4, as stated, fails in two ways.  With a heartbeat period of zero the
    connect and the handshake succeed and yet no goroutine is started:
    [time.NewTicker] panics.  And [OnStart] holds no guard of its own: a
    second call on the same instance starts a second goroutine. *)
Lemma OnStart_not_always_one_monitor :
  let e := env_ok 1 7 in
  let s := fresh (IPCValHeartbeat 0%Z sc0) in
  (outcome (connect e s) = Done None /\
   NewRemoteSignerClient e (conn (sc (st (connect e s)))) = (Some 7, None) /\
   outcome (OnStart e s) = Panic "non-positive interval for NewTicker" /\
   monitors (st (OnStart e s)) = 0 /\
   ~ In Spawn (effs (OnStart e s)))
  /\ (outcome (run [DoOnStart (env_ok 1 7); DoOnStart (env_ok 2 8)] (fresh sc0)) = Done tt /\
      monitors (st (run [DoOnStart (env_ok 1 7); DoOnStart (env_ok 2 8)] (fresh sc0))) = 2).
Proof.
  cbv zeta. repeat split; try reflexivity.
  vm_compute. intuition discriminate.
Qed.

(** C4, amended: a call of [OnStart] whose [connect] fails returns that
    error and leaves everything as it was, starting no goroutine; a call
    whose connect and handshake succeed, on an instance with a positive
    heartbeat period, stores the connection and the client, creates the
    channel and the ticker, and starts exactly one goroutine; and an
    instance on which [OnStart] is called at most once never has more than
    one keep-alive goroutine, whatever else happens to it.  With a
    non-positive period the timer cannot be created: [OnStart] panics and
    starts no goroutine. *)
Theorem OnStart_contract (s : State) (e : Env) (v : IPCVal) (cs : list Call) :
  let r := OnStart e s in
  (forall cerr, outcome (connect e s) = Done (Some cerr) ->
     outcome r = Done (Some cerr) /\
     st r = s /\
     ~ In Spawn (effs r))
  /\ (forall c cl,
        net_ResolveUnixAddr e (addr (sc s)) = None ->
        net_DialUnix e (addr (sc s)) = inr c ->
        NewRemoteSignerClient e (Some (newTimeoutConn c (connTimeout (sc s)))) =
          (cl, None) ->
        (0 < connHeartbeat (sc s))%Z ->
        outcome r = Done None /\
        conn (sc (st r)) = Some (newTimeoutConn c (connTimeout (sc s))) /\
        RemoteSignerClient (sc (st r)) = cl /\
        cancelPing (sc (st r)) = Some ChanOpen /\
        pingTicker (sc (st r)) =
          Some {| tk_period := connHeartbeat (sc s); tk_running := true |} /\
        monitors (st r) = S (monitors s) /\
        count_occ Effect_eq_dec (effs r) Spawn = 1)
  /\ (forall c cl,
        net_ResolveUnixAddr e (addr (sc s)) = None ->
        net_DialUnix e (addr (sc s)) = inr c ->
        NewRemoteSignerClient e (Some (newTimeoutConn c (connTimeout (sc s)))) =
          (cl, None) ->
        (connHeartbeat (sc s) <= 0)%Z ->
        outcome r = Panic "non-positive interval for NewTicker" /\
        monitors (st r) = monitors s /\
        ~ In Spawn (effs r))
  /\ (length (List.filter is_OnStart cs) <= 1 ->
      monitors (st (run cs (fresh v))) <= 1).
Proof.
  intros r. split; [|split; [|split]].
  - intros cerr Hc.
    destruct (connect_cases s e) as [[x Hx]|[[x Hx]|[x Hx]]];
      rewrite Hx in Hc; cbn in Hc; try discriminate Hc; injection Hc as ->.
    + assert (HS : r = mkResult (Done (Some cerr)) s
                [CallResolve (addr (sc s)); LogError "OnStart" cerr]).
      { subst r. unfold OnStart, bind at 1. rewrite Hx. reflexivity. }
      rewrite HS. cbn. repeat split. intuition discriminate.
    + assert (HS : r = mkResult (Done (Some cerr)) s
                [CallResolve (addr (sc s)); CallDial (addr (sc s));
                 LogError "OnStart" cerr]).
      { subst r. unfold OnStart, bind at 1. rewrite Hx. reflexivity. }
      rewrite HS. cbn. repeat split. intuition discriminate.
  - intros c cl Hr Hd Hh Hpos.
    assert (HS : r = mkResult (Done None)
      {| sc := set_pingTicker
                 (Some {| tk_period := connHeartbeat (sc s); tk_running := true |})
                 (set_cancelPing (Some ChanOpen)
                    (set_RemoteSignerClient cl
                       (set_conn (Some (newTimeoutConn c (connTimeout (sc s))))
                          (sc s))));
         open := open s ∪ {[c]};
         monitors := S (monitors s) |}
      [CallResolve (addr (sc s)); CallDial (addr (sc s)); MtxLock;
       SetConn (Some (newTimeoutConn c (connTimeout (sc s)))); MtxUnlock;
       MtxRLock; CallHandshake (Some (newTimeoutConn c (connTimeout (sc s))));
       SetClient cl; ChanMake; TickerNew (connHeartbeat (sc s)); Spawn;
       MtxRUnlock]).
    { subst r. unfold OnStart, bind at 1. rewrite (connect_ok s e c Hr Hd).
      go_simpl. rewrite Hh. cbn.
      destruct (Z.leb_spec (connHeartbeat (sc s)) 0) as [Hle|_]; [lia|].
      reflexivity. }
    rewrite HS. cbn [outcome st effs sc open monitors]. repeat split.
  - intros c cl Hr Hd Hh Hnonpos.
    assert (HS : r = mkResult (Panic "non-positive interval for NewTicker")
      {| sc := set_cancelPing (Some ChanOpen)
                 (set_RemoteSignerClient cl
                    (set_conn (Some (newTimeoutConn c (connTimeout (sc s))))
                       (sc s)));
         open := open s ∪ {[c]};
         monitors := monitors s |}
      [CallResolve (addr (sc s)); CallDial (addr (sc s)); MtxLock;
       SetConn (Some (newTimeoutConn c (connTimeout (sc s)))); MtxUnlock;
       MtxRLock; CallHandshake (Some (newTimeoutConn c (connTimeout (sc s))));
       SetClient cl; ChanMake; TickerNew (connHeartbeat (sc s)); MtxRUnlock]).
    { subst r. unfold OnStart, bind at 1. rewrite (connect_ok s e c Hr Hd).
      go_simpl. rewrite Hh. cbn.
      destruct (Z.leb_spec (connHeartbeat (sc s)) 0) as [_|Hlt]; [|lia].
      reflexivity. }
    rewrite HS. cbn [outcome st effs sc open monitors]. repeat split.
    cbn. intuition discriminate.
  - intros Hone. pose proof (run_monitors cs (fresh v)) as H. cbn in H. lia.
Qed.

Lemma OnStart_contract_witness :
  outcome (OnStart env_dial_fails (fresh sc0)) = Done (Some errDial)
  /\ monitors (st (OnStart (env_ok 1 7) (fresh sc0))) = 1
  /\ outcome (OnStart (env_ok 1 7) (fresh (IPCValHeartbeat 0%Z sc0))) =
     Panic "non-positive interval for NewTicker"
  /\ monitors (st (run [DoOnStart (env_ok 1 7); DoSelect CaseTick (env_reconnect 2 8);
                        DoOnStop; DoSelect CaseCancel env_ok_cancel] (fresh sc0))) <= 1.
Proof.
  split; [|split; [|split]].
  - pose proof (OnStart_contract (fresh sc0) env_dial_fails sc0 []) as H.
    cbv zeta in H. destruct H as (H & _). apply (H errDial). reflexivity.
  - pose proof (OnStart_contract (fresh sc0) (env_ok 1 7) sc0 []) as H.
    cbv zeta in H. destruct H as (_ & H & _).
    destruct (H 1 (Some 7) eq_refl eq_refl eq_refl eq_refl) as (_ & _ & _ & _ & _ & Hm & _).
    exact Hm.
  - pose proof (OnStart_contract (fresh (IPCValHeartbeat 0%Z sc0)) (env_ok 1 7) sc0 []) as H.
    cbv zeta in H. destruct H as (_ & _ & H & _).
    destruct (H 1 (Some 7) eq_refl eq_refl eq_refl) as (Hp & _).
    + cbn. discriminate.
    + exact Hp.
  - pose proof (OnStart_contract (fresh sc0) (env_ok 1 7) sc0
      [DoOnStart (env_ok 1 7); DoSelect CaseTick (env_reconnect 2 8);
       DoOnStop; DoSelect CaseCancel env_ok_cancel]) as H.
    cbv zeta in H. destruct H as (_ & _ & _ & H). apply H. cbn. lia.
Defined.

(** C6, as stated, fails: on an instance that [OnStart] has started, the
    first [OnStop] closes [cancelPing] and the connection, and the second
    one panics on closing the channel again. *)
Lemma second_OnStop_panics :
  outcome (OnStop started) = Done tt /\
  cancelPing (sc (st (OnStop started))) = Some ChanClosed /\
  outcome (OnStop (st (OnStop started))) = Panic "close of closed channel" /\
  outcome (run [DoOnStop; DoOnStop] started) = Panic "close of closed channel".
Proof. repeat split; reflexivity. Qed.

(** C6, amended: [OnStop] has no return value, so no error of it reaches
    the caller.  Where no cancellation channel exists ([cancelPing] is
    nil), a second [OnStop] does not panic: it finds the connection closed,
    logs the error of [Close] and changes nothing.  Where the channel has
    been closed by an earlier [OnStop], calling [OnStop] again panics
    before it reaches the connection. *)
Theorem second_OnStop (s : State) (tc : timeoutConn) :
  conn (sc s) = Some tc ->
  let r1 := OnStop s in
  (cancelPing (sc s) = None ->
   let r2 := OnStop (st r1) in
   outcome r1 = Done tt /\
   (tc_conn tc ∉ open (st r1)) /\
   outcome r2 = Done tt /\
   st r2 = st r1 /\
   effs r2 = [MtxRLock; CallClose tc; LogError "OnStop" ErrClosed; MtxRUnlock])
  /\ (cancelPing (sc s) = Some ChanOpen ->
      let r2 := OnStop (st r1) in
      outcome r1 = Done tt /\
      cancelPing (sc (st r1)) = Some ChanClosed /\
      outcome r2 = Panic "close of closed channel" /\
      st r2 = st r1 /\
      effs r2 = [])
  /\ (cancelPing (sc s) = Some ChanClosed ->
      outcome r1 = Panic "close of closed channel" /\ st r1 = s /\ effs r1 = []).
Proof.
  intros Hconn r1. subst r1. split; [|split]; intros Hcp.
  - assert (H2 : forall s', conn (sc s') = Some tc -> cancelPing (sc s') = None ->
                 tc_conn tc ∉ open s' ->
                 OnStop s' = mkResult (Done tt) s'
                   [MtxRLock; CallClose tc; LogError "OnStop" ErrClosed; MtxRUnlock]).
    { intros s' Hc' Hp' Hn'. go_simpl. rewrite Hp', Hc'.
      rewrite decide_False by assumption. reflexivity. }
    destruct (decide (tc_conn tc ∈ open s)) as [Hin|Hnin].
    + assert (H1 : OnStop s = mkResult (Done tt)
                (with_open (fun o => o ∖ {[tc_conn tc]}) s)
                [MtxRLock; CallClose tc; MtxRUnlock]).
      { go_simpl. rewrite Hcp, Hconn.
        rewrite decide_True by assumption. reflexivity. }
      rewrite H1. cbn [outcome st effs].
      rewrite H2 by (cbn; first [assumption | apply closed_not_open]).
      cbn [outcome st effs]. repeat split. cbn. apply closed_not_open.
    + rewrite !(H2 s Hconn Hcp Hnin). cbn [outcome st effs].
      rewrite !(H2 s Hconn Hcp Hnin). repeat split. assumption.
  - assert (H1 : exists o l, OnStop s =
                mkResult (Done tt)
                  {| sc := set_cancelPing (Some ChanClosed) (sc s);
                     open := o; monitors := monitors s |} l).
    { go_simpl. rewrite Hcp. go_cbn. rewrite Hconn.
      destruct (decide _); cbn; eauto. }
    destruct H1 as (o & l & H1). rewrite H1. cbn [outcome st effs sc].
    repeat split.
  - go_simpl. rewrite Hcp. repeat split.
Qed.

Lemma second_OnStop_witness :
  let s := st (OnStart (env_handshake_fails 4) (fresh sc0)) in
  (outcome (OnStop (st (OnStop s))) = Done tt /\
   st (OnStop (st (OnStop s))) = st (OnStop s))
  /\ outcome (OnStop (st (OnStop started))) = Panic "close of closed channel".
Proof.
  cbv zeta. split.
  - pose proof (second_OnStop (st (OnStart (env_handshake_fails 4) (fresh sc0)))
                  (newTimeoutConn 4 3000000000%Z) eq_refl) as H.
    cbv zeta in H. destruct H as (H & _).
    destruct (H eq_refl) as (_ & _ & H1 & H2 & _). split; assumption.
  - pose proof (second_OnStop started (newTimeoutConn 1 3000000000%Z) eq_refl) as H.
    cbv zeta in H. destruct H as (_ & H & _).
    destruct (H eq_refl) as (_ & _ & H1 & _). exact H1.
Defined.

(** ** Construction and options *)

(** C8: the instance that [NewIPCVal] returns carries the two defaults of
    the package, which are nonzero.  A caller overrides them by applying
    the options [IPCValConnTimeout] and [IPCValHeartbeat], in either order,
    to the instance just constructed: the instance then holds the timeout
    and the period supplied instead of the defaults, everything else being
    as constructed, and these are the values it uses when started: the
    connection is wrapped with the timeout supplied and the ticker is
    created with the period supplied. *)
Theorem defaults_nonzero_and_overridable (d : Defaults)
    (logger socketAddr : string) (timeout period : Duration)
    (e : Env) (c : fd) (cl : option clientPtr) :
  let v0 := NewIPCVal (default_connTimeout d) (default_connHeartbeat d)
              logger socketAddr in
  let v := IPCValHeartbeat period (IPCValConnTimeout timeout v0) in
  (connTimeout v0 = default_connTimeout d /\
   connHeartbeat v0 = default_connHeartbeat d)
  /\ (connTimeout v0 <> 0%Z /\ connHeartbeat v0 <> 0%Z)
  /\ (connTimeout v = timeout /\ connHeartbeat v = period)
  /\ v = IPCValConnTimeout timeout (IPCValHeartbeat period v0)
  /\ (connTimeout (IPCValConnTimeout timeout v0) = timeout /\
      connHeartbeat (IPCValConnTimeout timeout v0) = default_connHeartbeat d)
  /\ (connHeartbeat (IPCValHeartbeat period v0) = period /\
      connTimeout (IPCValHeartbeat period v0) = default_connTimeout d)
  /\ (addr v = socketAddr /\ baseService v = baseService v0 /\
      conn v = None /\ RemoteSignerClient v = None /\
      cancelPing v = None /\ pingTicker v = None)
  /\ (net_ResolveUnixAddr e socketAddr = None ->
      net_DialUnix e socketAddr = inr c ->
      NewRemoteSignerClient e (Some (newTimeoutConn c timeout)) = (cl, None) ->
      (0 < period)%Z ->
      let r := OnStart e (fresh v) in
      outcome r = Done None /\
      conn (sc (st r)) = Some (newTimeoutConn c timeout) /\
      pingTicker (sc (st r)) =
        Some {| tk_period := period; tk_running := true |} /\
      In (TickerNew period) (effs r)).
Proof.
  cbv zeta.
  do 7 (split; [repeat split;
                first [ reflexivity
                      | apply (default_connTimeout_nonzero d)
                      | apply (default_connHeartbeat_nonzero d) ]|]).
  intros Hr Hd Hh Hpos.
  match goal with |- context [OnStart e ?s0] =>
    assert (HS : OnStart e s0 =
      mkResult (Done None)
        {| sc := set_pingTicker
                   (Some {| tk_period := period; tk_running := true |})
                   (set_cancelPing (Some ChanOpen)
                      (set_RemoteSignerClient cl
                         (set_conn (Some (newTimeoutConn c timeout)) (sc s0))));
           open := open s0 ∪ {[c]};
           monitors := S (monitors s0) |}
        [CallResolve socketAddr; CallDial socketAddr; MtxLock;
         SetConn (Some (newTimeoutConn c timeout)); MtxUnlock;
         MtxRLock; CallHandshake (Some (newTimeoutConn c timeout));
         SetClient cl; ChanMake; TickerNew period; Spawn; MtxRUnlock])
  end.
  { unfold OnStart, bind at 1. rewrite (connect_ok _ e c) by assumption.
    go_simpl. rewrite Hh. go_cbn.
    destruct (Z.leb_spec period 0) as [Hle|_]; [lia|]. reflexivity. }
  rewrite HS. cbn [outcome st effs sc]. repeat split. cbn. tauto.
Qed.

Lemma defaults_nonzero_and_overridable_witness :
  let v0 := NewIPCVal 3000000000%Z 2000000000%Z "logger" "/tmp/signer.sock" in
  let v := IPCValHeartbeat 50000000%Z (IPCValConnTimeout 5000000%Z v0) in
  (connTimeout v0 <> 0%Z /\ connHeartbeat v0 <> 0%Z)
  /\ (connTimeout v = 5000000%Z /\ connHeartbeat v = 50000000%Z)
  /\ conn (sc (st (OnStart (env_ok 1 7) (fresh v)))) =
     Some (newTimeoutConn 1 5000000%Z)
  /\ pingTicker (sc (st (OnStart (env_ok 1 7) (fresh v)))) =
     Some {| tk_period := 50000000%Z; tk_running := true |}.
Proof.
  assert (H3 : 3000000000%Z <> 0%Z) by discriminate.
  assert (H2 : 2000000000%Z <> 0%Z) by discriminate.
  pose proof (defaults_nonzero_and_overridable
    {| default_connTimeout := 3000000000%Z; default_connHeartbeat := 2000000000%Z;
       default_connTimeout_nonzero := H3; default_connHeartbeat_nonzero := H2 |}
    "logger" "/tmp/signer.sock" 5000000%Z 50000000%Z (env_ok 1 7) 1 (Some 7)) as H.
  cbv zeta in H |- *. cbn [default_connTimeout default_connHeartbeat] in H.
  destruct H as (_ & Hnz & Hov & _ & _ & _ & _ & Hstart).
  destruct (Hstart eq_refl eq_refl eq_refl eq_refl) as (_ & Hc & Ht & _).
  repeat split; first [ apply Hnz | apply Hov | exact Hc | exact Ht ].
Defined.

(** ** A reader next to a reconnect *)

(** The field writes recorded for a tick are all the writes the tick makes
    to [conn] and [RemoteSignerClient]. *)
Lemma tick_writes_recorded e s :
  conn (replay_writes (effs (monitorStep CaseTick e s)) (sc s)) =
    conn (sc (st (monitorStep CaseTick e s))) /\
  RemoteSignerClient (replay_writes (effs (monitorStep CaseTick e s)) (sc s)) =
    RemoteSignerClient (sc (st (monitorStep CaseTick e s))).
Proof. go_cases; split; reflexivity. Qed.

Lemma reconnect_tick_ops s e err c ncl :
  Ping e (RemoteSignerClient (sc s)) = Some err ->
  err <> ErrUnexpectedResponse ->
  net_ResolveUnixAddr e (addr (sc s)) = None ->
  net_DialUnix e (addr (sc s)) = inr c ->
  NewRemoteSignerClient e (Some (newTimeoutConn c (connTimeout (sc s)))) =
    (ncl, None) ->
  effs (monitorIter CaseTick e s) =
  reconnect_ops (addr (sc s)) err (Some (newTimeoutConn c (connTimeout (sc s)))) ncl.
Proof.
  intros Hping Htr Hr Hd Hh. go_simpl. rewrite Hping.
  rewrite (error_eqb_transient err Htr). rewrite Hr, Hd. go_cbn. rewrite Hh.
  reflexivity.
Qed.

Ltac inv_hyps :=
  repeat match goal with
  | H : ?n = ?n -> _ |- _ => specialize (H eq_refl)
  | H : _ <= _ -> _ |- _ => first [ specialize (H ltac:(lia)) | clear H ]
  | H : _ = _ -> _ |- _ => clear H
  | H : _ /\ _ |- _ => destruct H
  | H : _ \/ _ |- _ => destruct H
  | H : exists _, _ |- _ => destruct H
  | p : (_ * _)%type |- _ => destruct p
  end; cbn [fst snd] in *; subst.

Ltac inv_pair_at p :=
  exists p; cbn [fst snd]; unfold allowed_pair;
  solve [ repeat split; first [ assumption | reflexivity | tauto | congruence ] ].

Ltac inv_pair c0 c1 s0 s1 :=
  first [ inv_pair_at (c0, s0) | inv_pair_at (c1, s0) | inv_pair_at (c1, s1) ].

Ltac inv_goal c0 c1 s0 s1 :=
  cbn; repeat split;
  try solve [ reflexivity | lia | discriminate | assumption
            | intros; exfalso; first [ lia | discriminate | congruence ]
            | intros; split; first [ lia | discriminate ]
            | intros; first [ left; split; [ assumption || reflexivity | lia ]
                            | right; assumption || reflexivity ]
            | intros;
              match goal with
              | H : allowed_pair _ _ _ _ ?p |- _ =>
                  exists p; cbn [fst snd]; repeat split; assumption
              end
            | intros; inv_pair c0 c1 s0 s1 ].

(** Case analysis on the number [k] of operations done, [n] being the
    value reached so far. *)
Ltac by_count k n tac :=
  destruct k as [|k];
  [ tac n
  | lazymatch n with
    | 12 => exfalso; lia
    | _ => by_count k (S n) tac
    end ].

Section ReaderVsReconnect.
Variables (c0 c1 : option timeoutConn) (s0 s1 : option clientPtr).
Variables (a : string) (err : error).

Lemma reconnect_inv_init :
  reconnect_inv c0 c1 s0 s1 (reconnect_ops a err c1 s1)
    {| mon := reconnect_ops a err c1 s1; rd := reader0;
       mem := {| sh_conn := c0; sh_client := s0;
                 sh_writer := false; sh_readers := 0 |} |}.
Proof. exists 0. cbn. repeat split; try lia; try discriminate. Qed.

Lemma reconnect_inv_step t cfg :
  reconnect_inv c0 c1 s0 s1 (reconnect_ops a err c1 s1) cfg ->
  reconnect_inv c0 c1 s0 s1 (reconnect_ops a err c1 s1) (step t cfg).
Proof.
  intros (k & Hk & Hmon & Hc & Hs & Hw & Hr & Hpc & Hcs & H2 & H3).
  destruct cfg as [m [pc rc rcl] [shc shs w rds]]. cbn in *. subst m shc shs w rds.
  destruct t.
  - by_count k 0 ltac:(fun n =>
      do 5 (destruct pc as [|pc]; [
        cbn in *; inv_hyps; try (exfalso; lia);
        first [ solve [ exists (S n); inv_goal c0 c1 s0 s1 ]
              | solve [ exists n; inv_goal c0 c1 s0 s1 ] ]
        | ]); exfalso; lia).
  - by_count k 0 ltac:(fun n =>
      do 5 (destruct pc as [|pc]; [
        cbn in *; inv_hyps; try (exfalso; lia);
        solve [ exists n; inv_goal c0 c1 s0 s1 ]
        | ]); exfalso; lia).
Qed.

Lemma reconnect_inv_interleave sched cfg :
  reconnect_inv c0 c1 s0 s1 (reconnect_ops a err c1 s1) cfg ->
  reconnect_inv c0 c1 s0 s1 (reconnect_ops a err c1 s1) (interleave sched cfg).
Proof.
  revert cfg. induction sched as [|t sched IH]; intros cfg H; [exact H|].
  cbn. apply IH. now apply reconnect_inv_step.
Qed.

Lemma reconnect_inv_observed cfg p :
  reconnect_inv c0 c1 s0 s1 (reconnect_ops a err c1 s1) cfg ->
  observed cfg = Some p -> allowed_pair c0 c1 s0 s1 p.
Proof.
  intros (k & _ & _ & _ & _ & _ & _ & _ & _ & _ & H3) Hobs.
  unfold observed in Hobs.
  destruct (rd_pc (rd cfg)) as [|[|[|[|[|pc]]]]] eqn:Hpc; try discriminate Hobs.
  destruct (H3 ltac:(lia)) as ([pc' ps'] & Hc & Hs & Hall).
  rewrite Hc, Hs in Hobs. cbn in Hobs. injection Hobs as <-. exact Hall.
Qed.
End ReaderVsReconnect.

(** C7, as stated, fails: [conn] and [RemoteSignerClient] are assigned in
    two separate lock scopes.  A reader that takes the read lock between
    the two sees the new connection (descriptor 2) together with the old
    client (7): neither the old pair nor the new one. *)
Lemma reader_sees_mixed_pair :
  let s := started in
  let e := env_reconnect 2 8 in
  let old := (conn (sc s), RemoteSignerClient (sc s)) in
  let new := (conn (sc (st (monitorStep CaseTick e s))),
              RemoteSignerClient (sc (st (monitorStep CaseTick e s)))) in
  let final := interleave schedule_between (tick_vs_reader e s) in
  old = (Some (newTimeoutConn 1 3000000000%Z), Some 7) /\
  new = (Some (newTimeoutConn 2 3000000000%Z), Some 8) /\
  mon final = [] /\
  observed final = Some (Some (newTimeoutConn 2 3000000000%Z), Some 7) /\
  observed final <> Some old /\
  observed final <> Some new.
Proof.
  cbv zeta. repeat split; try reflexivity.
  - vm_compute. intros H. discriminate H.
  - vm_compute. intros H. discriminate H.
Qed.

(** C7, amended: during a tick that reconnects, [conn] is replaced under
    the exclusive lock and [RemoteSignerClient] afterwards, in a lock
    scope of its own.  Whatever the interleaving, a reader that reads both
    fields under the read lock sees the old pair, the new pair, or the new
    connection with the old client; it never sees the old connection with
    the new client. *)
Theorem reader_pair_during_reconnect (s : State) (e : Env) (err : error)
    (c : fd) (ncl : option clientPtr) (sched : list Thread)
    (p : option timeoutConn * option clientPtr) :
  Ping e (RemoteSignerClient (sc s)) = Some err ->
  err <> ErrUnexpectedResponse ->
  net_ResolveUnixAddr e (addr (sc s)) = None ->
  net_DialUnix e (addr (sc s)) = inr c ->
  NewRemoteSignerClient e (Some (newTimeoutConn c (connTimeout (sc s)))) =
    (ncl, None) ->
  observed (interleave sched (tick_vs_reader e s)) = Some p ->
  let c0 := conn (sc s) in
  let s0 := RemoteSignerClient (sc s) in
  let c1 := Some (newTimeoutConn c (connTimeout (sc s))) in
  (p = (c0, s0) \/ p = (c1, s0) \/ p = (c1, ncl))
  /\ (c0 <> c1 -> s0 <> ncl -> p <> (c0, ncl))
  /\ conn_writes_locked false (effs (monitorIter CaseTick e s)) = true.
Proof.
  intros Hping Htr Hr Hd Hh Hobs c0 s0 c1.
  unfold tick_vs_reader in Hobs.
  rewrite (reconnect_tick_ops s e err c ncl Hping Htr Hr Hd Hh) in Hobs |- *.
  assert (Hall : allowed_pair c0 c1 s0 ncl p).
  { eapply reconnect_inv_observed; [|exact Hobs].
    apply reconnect_inv_interleave. apply reconnect_inv_init. }
  split; [exact Hall|]. split; [|reflexivity].
  intros Hc Hs ->. destruct Hall as [H|[H|H]]; congruence.
Qed.

Lemma reader_pair_during_reconnect_witness :
  let p := (Some (newTimeoutConn 2 3000000000%Z), Some 7) in
  p = (conn (sc started), RemoteSignerClient (sc started)) \/
  p = (Some (newTimeoutConn 2 3000000000%Z), RemoteSignerClient (sc started)) \/
  p = (Some (newTimeoutConn 2 3000000000%Z), Some 8).
Proof.
  assert (Hne : errEOF <> ErrUnexpectedResponse) by discriminate.
  pose proof (reader_pair_during_reconnect started (env_reconnect 2 8) errEOF 2
    (Some 8) schedule_between (Some (newTimeoutConn 2 3000000000%Z), Some 7)
    eq_refl Hne eq_refl eq_refl eq_refl eq_refl) as H.
  cbv zeta in H. destruct H as (H & _). exact H.
Defined.

(** * Further properties of the methods *)

(** ** Runs *)

Lemma run_cons c cs s :
  run (c :: cs) s =
  match call c s with
  | mkResult (Done _) s1 l1 =>
      match run cs s1 with
      | mkResult o s2 l2 => mkResult o s2 (l1 ++ l2)
      end
  | mkResult (Panic msg) s1 l1 => mkResult (Panic msg) s1 l1
  end.
Proof. reflexivity. Qed.

(** A property of the state kept by every call of a kind is kept by every
    run made of such calls, whether it ends normally or in a panic. *)
Lemma run_invariant (Q : Call -> Prop) (P : State -> Prop) :
  (forall c s, Q c -> P s -> P (st (call c s))) ->
  forall cs s, Forall Q cs -> P s -> P (st (run cs s)).
Proof.
  intros Hcall cs. induction cs as [|c cs IH]; intros s HQ HP; [exact HP|].
  inversion HQ as [|? ? Hc Hcs]; subst.
  rewrite run_cons. specialize (Hcall c s Hc HP).
  destruct (call c s) as [[x|msg] s1 l1]; cbn [st] in *; [|exact Hcall].
  specialize (IH s1 Hcs Hcall). destruct (run cs s1) as [o s2 l2]. exact IH.
Qed.

Lemma call_OnStart_st e s : st (call (DoOnStart e) s) = st (OnStart e s).
Proof.
  cbn [call]. unfold bind. destruct (OnStart e s) as [[x|msg] s1 l1]; reflexivity.
Qed.

Lemma call_OnStart_effs e s : effs (call (DoOnStart e) s) = effs (OnStart e s).
Proof.
  cbn [call]. unfold bind.
  destruct (OnStart e s) as [[x|msg] s1 l1]; cbn; [apply app_nil_r|reflexivity].
Qed.

(** X1: while the signer answers the probe, any number of ticks leaves the
    connection, the client and everything else as they are; each tick
    makes one probe and nothing else (no dial, no handshake, no lock). *)
Theorem healthy_ticks_change_nothing (s : State) (e : Env) (k n : nat) :
  monitors s = S k ->
  Ping e (RemoteSignerClient (sc s)) = None ->
  run (ticks (repeat (CaseTick, e) n)) s =
  mkResult (Done tt) s (repeat CallPing n).
Proof.
  intros Hlive Hping. induction n as [|n IH]; [reflexivity|].
  cbn [repeat ticks map fst snd]. fold (ticks (repeat (CaseTick, e) n)).
  rewrite run_cons. cbn [call].
  rewrite (tick_alive s e k Hlive Hping). rewrite IH. reflexivity.
Qed.

Lemma healthy_ticks_change_nothing_witness :
  run (ticks (repeat (CaseTick, env_ok 5 5) 3)) started =
  mkResult (Done tt) started [CallPing; CallPing; CallPing].
Proof.
  exact (healthy_ticks_change_nothing started (env_ok 5 5) 0 3 eq_refl eq_refl).
Defined.

(** X2: a tick whose probe fails with a transient error and whose dial and
    handshake succeed installs the new connection, wrapped with the
    instance's timeout, and the new client; the new connection is open,
    nothing is closed (the connection that was replaced included), every
    connection that was open stays open, and the goroutine stays in its
    loop. *)
Theorem reconnect_installs_new_pair (s : State) (e : Env) (n : nat)
    (err : error) (c : fd) (ncl : option clientPtr) :
  monitors s = S n ->
  Ping e (RemoteSignerClient (sc s)) = Some err ->
  err <> ErrUnexpectedResponse ->
  net_ResolveUnixAddr e (addr (sc s)) = None ->
  net_DialUnix e (addr (sc s)) = inr c ->
  NewRemoteSignerClient e (Some (newTimeoutConn c (connTimeout (sc s)))) =
    (ncl, None) ->
  let r := monitorStep CaseTick e s in
  outcome r = Done tt /\
  conn (sc (st r)) = Some (newTimeoutConn c (connTimeout (sc s))) /\
  RemoteSignerClient (sc (st r)) = ncl /\
  (c ∈ open (st r)) /\
  (forall c0, c0 ∈ open s -> c0 ∈ open (st r)) /\
  (forall x, ~ In (CallClose x) (effs r)) /\
  monitors (st r) = S n /\
  In (LogInfo "Re-created connection to remote signer") (effs r).
Proof.
  intros Hlive Hping Htr Hr Hd Hh r. subst r.
  rewrite (tick_reconnected s e n Hlive err Hping Htr c ncl Hr Hd Hh).
  cbn [outcome st effs sc open monitors conn RemoteSignerClient
       set_RemoteSignerClient set_conn].
  repeat split.
  - apply dialled_open.
  - intros c0 Hc0. apply elem_of_union. now left.
  - intros x HIn. cbn in HIn. intuition discriminate.
  - exact Hlive.
  - cbn. tauto.
Qed.

Lemma reconnect_installs_new_pair_witness :
  let r := monitorStep CaseTick (env_reconnect 2 8) started in
  conn (sc (st r)) = Some (newTimeoutConn 2 3000000000%Z) /\
  RemoteSignerClient (sc (st r)) = Some 8 /\
  (1 ∈ open (st r)).
Proof.
  assert (Hne : errEOF <> ErrUnexpectedResponse) by discriminate.
  pose proof (reconnect_installs_new_pair started (env_reconnect 2 8) 0 errEOF
    2 (Some 8) eq_refl eq_refl Hne eq_refl eq_refl eq_refl) as H.
  cbv zeta in H |- *. destruct H as (_ & H1 & H2 & _ & H3 & _).
  split; [exact H1|]. split; [exact H2|].
  apply H3. vm_compute. reflexivity.
Defined.

(** ** Connections the loop leaves open *)

Lemma monitorStep_keeps_open ev e s c0 :
  c0 ∈ open s ->
  net_DialUnix e (addr (sc s)) <> inr c0 ->
  c0 ∈ open (st (monitorStep ev e s)).
Proof.
  intros Hin Hd. destruct ev; go_cases; try assumption;
    repeat match goal with
    | |- _ ∈ _ ∖ _ => apply elem_of_difference; split
    | |- _ ∈ _ ∪ _ => apply elem_of_union; left
    | |- _ ∉ {[ _ ]} =>
        let H := fresh in intros H; apply elem_of_singleton in H; congruence
    end; assumption.
Qed.

Lemma monitorStep_closes_only_dialled ev e s x :
  In (CallClose x) (effs (monitorStep ev e s)) ->
  net_DialUnix e (addr (sc s)) = inr (tc_conn x).
Proof.
  destruct ev; go_cases; intros HIn; cbn in HIn;
    repeat (destruct HIn as [HIn|HIn];
            [first [discriminate HIn | injection HIn as <-; reflexivity]|]);
    contradiction.
Qed.

(** X3: whatever a pass of the keep-alive loop does, it closes no
    connection other than the one it has just dialled: a connection that
    was open before the pass is open after it, the connection in [conn]
    that a reconnect replaces included. *)
Theorem tick_closes_only_what_it_dialled (s : State) (ev : SelectCase)
    (e : Env) (c0 : fd) (x : timeoutConn) :
  (c0 ∈ open s -> net_DialUnix e (addr (sc s)) <> inr c0 ->
   c0 ∈ open (st (monitorStep ev e s)))
  /\ (In (CallClose x) (effs (monitorStep ev e s)) ->
      net_DialUnix e (addr (sc s)) = inr (tc_conn x)).
Proof.
  split.
  - apply monitorStep_keeps_open.
  - apply monitorStep_closes_only_dialled.
Qed.

Lemma tick_closes_only_what_it_dialled_witness :
  1 ∈ open (st (monitorStep CaseTick (env_handshake_fails 2) started)).
Proof.
  pose proof (tick_closes_only_what_it_dialled started CaseTick
                (env_handshake_fails 2) 1 (newTimeoutConn 2 0%Z)) as H.
  destruct H as (H & _). apply H.
  - vm_compute. reflexivity.
  - discriminate.
Defined.

(** ** Stopping *)

(** The first [OnStop] on a started instance. *)
Lemma OnStop_started s tc :
  cancelPing (sc s) = Some ChanOpen ->
  conn (sc s) = Some tc ->
  outcome (OnStop s) = Done tt /\
  sc (st (OnStop s)) = set_cancelPing (Some ChanClosed) (sc s) /\
  monitors (st (OnStop s)) = monitors s /\
  (tc_conn tc ∉ open (st (OnStop s))) /\
  (forall c0, c0 <> tc_conn tc -> c0 ∈ open s -> c0 ∈ open (st (OnStop s))) /\
  (forall c0, c0 ∈ open (st (OnStop s)) -> c0 ∈ open s) /\
  (forall x, In (CallClose x) (effs (OnStop s)) -> x = tc) /\
  ~ In TickerStop (effs (OnStop s)).
Proof.
  intros Hcp Hconn. go_simpl. rewrite Hcp. go_cbn. rewrite Hconn. go_cbn.
  destruct (decide (tc_conn tc ∈ open s)) as [Hin|Hnin]; cbn;
    repeat split; try assumption; try tauto.
  - apply closed_not_open.
  - intros c0 Hne H0. apply elem_of_difference. split; [assumption|].
    intros H1. apply elem_of_singleton in H1. contradiction.
  - intros c0 H0. apply elem_of_difference in H0. tauto.
  - intros x [H|[H|[H|[H|[]]]]]; congruence.
  - intros [H|[H|[H|[H|[]]]]]; discriminate.
  - intros x [H|[H|[H|[H|[H|[]]]]]]; congruence.
  - intros [H|[H|[H|[H|[H|[]]]]]]; discriminate.
Qed.

(** The pass of the loop that receives from the closed [cancelPing]. *)
Lemma cancel_received s e n :
  monitors s = S n ->
  cancelPing (sc s) = Some ChanClosed ->
  monitorStep CaseCancel e s =
  mkResult (Done tt)
    {| sc := stopTicker (sc s); open := open s; monitors := n |}
    [TickerStop].
Proof.
  intros Hlive Hcp. unfold monitorStep. rewrite Hlive. cbn [selectable].
  rewrite Hcp. go_simpl. rewrite Hlive. reflexivity.
Qed.

(** X4: before [OnStop] the goroutine cannot leave through the
    cancellation case.  [OnStop] followed by the receive on [cancelPing]
    closes the connection in [conn], stops the ticker and ends the
    goroutine; after that no tick or cancellation has any effect. *)
Theorem stop_then_cancel (s : State) (e : Env) (tc : timeoutConn) (t : Ticker)
    (later : list (SelectCase * Env)) :
  monitors s = 1 ->
  cancelPing (sc s) = Some ChanOpen ->
  conn (sc s) = Some tc ->
  pingTicker (sc s) = Some t ->
  let r := run [DoOnStop; DoSelect CaseCancel e] s in
  monitorStep CaseCancel e s = mkResult (Done tt) s [] /\
  outcome r = Done tt /\
  monitors (st r) = 0 /\
  (tc_conn tc ∉ open (st r)) /\
  cancelPing (sc (st r)) = Some ChanClosed /\
  pingTicker (sc (st r)) =
    Some {| tk_period := tk_period t; tk_running := false |} /\
  count_occ Effect_eq_dec (effs r) TickerStop = 1 /\
  run (ticks later) (st r) = mkResult (Done tt) (st r) [].
Proof.
  intros Hlive Hcp Hconn Htk r. subst r.
  split.
  { unfold monitorStep. rewrite Hlive. cbn [selectable]. rewrite Hcp. reflexivity. }
  rewrite run_cons. cbn [call].
  destruct (OnStop_started s tc Hcp Hconn)
    as (Ho & Hsc & Hm & Hclosed & _ & _ & _ & Hns).
  destruct (OnStop s) as [o s1 l1]. cbn [outcome st effs] in *. subst o.
  rewrite run_cons. cbn [call].
  assert (Hlive1 : monitors s1 = 1) by congruence.
  assert (Hcp1 : cancelPing (sc s1) = Some ChanClosed) by (rewrite Hsc; reflexivity).
  rewrite (cancel_received s1 e 0 Hlive1 Hcp1). cbn [run ret].
  cbn [outcome st effs sc open monitors]. rewrite Hsc.
  repeat split.
  - exact Hclosed.
  - cbn. rewrite Htk. reflexivity.
  - rewrite app_nil_r, count_occ_app. cbn.
    rewrite (proj1 (count_occ_not_In Effect_eq_dec l1 TickerStop)) by exact Hns.
    reflexivity.
  - apply run_ticks_no_goroutine. reflexivity.
Qed.

Lemma stop_then_cancel_witness :
  let r := run [DoOnStop; DoSelect CaseCancel env_ok_cancel] started in
  outcome r = Done tt /\ monitors (st r) = 0 /\ (1 ∉ open (st r)).
Proof.
  pose proof (stop_then_cancel started env_ok_cancel
    (newTimeoutConn 1 3000000000%Z)
    {| tk_period := 2000000000%Z; tk_running := true |} []
    eq_refl eq_refl eq_refl eq_refl) as H.
  cbv zeta in H |- *. destruct H as (_ & H1 & H2 & H3 & _).
  repeat split; assumption.
Defined.

(** X5: [OnStop] does not end the goroutine by itself.  A tick that is
    served after [OnStop] and before the receive on [cancelPing] finds the
    probe failing and reconnects: once the goroutine has ended, [conn]
    holds a connection that is open, and no later tick or cancellation
    closes it. *)
Theorem tick_after_stop_reconnects (s : State) (e e' : Env) (tc : timeoutConn)
    (err : error) (c : fd) (ncl : option clientPtr)
    (later : list (SelectCase * Env)) :
  monitors s = 1 ->
  cancelPing (sc s) = Some ChanOpen ->
  conn (sc s) = Some tc ->
  Ping e (RemoteSignerClient (sc s)) = Some err ->
  err <> ErrUnexpectedResponse ->
  net_ResolveUnixAddr e (addr (sc s)) = None ->
  net_DialUnix e (addr (sc s)) = inr c ->
  NewRemoteSignerClient e (Some (newTimeoutConn c (connTimeout (sc s)))) =
    (ncl, None) ->
  let r := run [DoOnStop; DoSelect CaseTick e; DoSelect CaseCancel e'] s in
  outcome r = Done tt /\
  monitors (st r) = 0 /\
  conn (sc (st r)) = Some (newTimeoutConn c (connTimeout (sc s))) /\
  (c ∈ open (st r)) /\
  run (ticks later) (st r) = mkResult (Done tt) (st r) [].
Proof.
  intros Hlive Hcp Hconn Hping Htr Hr Hd Hh r. subst r.
  rewrite run_cons. cbn [call].
  destruct (OnStop_started s tc Hcp Hconn) as (Ho & Hsc & Hm & _).
  destruct (OnStop s) as [o s1 l1]. cbn [outcome st effs] in *. subst o.
  assert (Hlive1 : monitors s1 = 1) by congruence.
  rewrite run_cons. cbn [call].
  rewrite (tick_reconnected s1 e 0 Hlive1 err) with (c := c) (ncl := ncl);
    try (rewrite Hsc; cbn; assumption); try assumption.
  rewrite run_cons. cbn [call].
  rewrite (cancel_received _ e' 0) by (cbn; rewrite ?Hsc; first [assumption | reflexivity]).
  cbn [run ret outcome st effs sc open monitors]. rewrite Hsc.
  repeat split.
  - apply dialled_open.
  - apply run_ticks_no_goroutine. reflexivity.
Qed.

Lemma tick_after_stop_reconnects_witness :
  let r := run [DoOnStop; DoSelect CaseTick (env_reconnect 2 8);
                DoSelect CaseCancel env_ok_cancel] started in
  monitors (st r) = 0 /\ (2 ∈ open (st r)).
Proof.
  assert (Hne : errEOF <> ErrUnexpectedResponse) by discriminate.
  pose proof (tick_after_stop_reconnects started (env_reconnect 2 8) env_ok_cancel
    (newTimeoutConn 1 3000000000%Z) errEOF 2 (Some 8) []
    eq_refl eq_refl eq_refl eq_refl Hne eq_refl eq_refl eq_refl) as H.
  cbv zeta in H |- *. destruct H as (_ & H1 & _ & H2 & _).
  split; assumption.
Defined.

(** X6: the connection that a reconnect replaces is never closed.  When a
    tick dials a new connection, whether the handshake then succeeds or
    fails, and [OnStop] follows, the only connection on which [Close] is
    ever called is the newly dialled one; the connection that was in
    [conn] before the tick is still open after [OnStop]. *)
Theorem replaced_connection_stays_open (s : State) (e : Env) (n : nat)
    (tc0 : timeoutConn) (err : error) (c : fd) :
  monitors s = S n ->
  cancelPing (sc s) = Some ChanOpen ->
  conn (sc s) = Some tc0 ->
  tc_conn tc0 ∈ open s ->
  Ping e (RemoteSignerClient (sc s)) = Some err ->
  err <> ErrUnexpectedResponse ->
  net_ResolveUnixAddr e (addr (sc s)) = None ->
  net_DialUnix e (addr (sc s)) = inr c ->
  c <> tc_conn tc0 ->
  let r := run [DoSelect CaseTick e; DoOnStop] s in
  outcome r = Done tt /\
  conn (sc (st r)) = Some (newTimeoutConn c (connTimeout (sc s))) /\
  (tc_conn tc0 ∈ open (st r)) /\
  (c ∉ open (st r)) /\
  (forall x, In (CallClose x) (effs r) -> tc_conn x = c).
Proof.
  intros Hlive Hcp Hconn Hopen Hping Htr Hr Hd Hne r. subst r.
  rewrite run_cons. cbn [call].
  destruct (NewRemoteSignerClient e (Some (newTimeoutConn c (connTimeout (sc s)))))
    as [ncl [herr|]] eqn:Hh.
  - rewrite (tick_handshake_failed s e n Hlive err Hping Htr c ncl herr Hr Hd Hh).
    cbv zeta. rewrite run_cons. cbn [call].
    match goal with |- context [OnStop ?s1] =>
      destruct (OnStop_started s1 (newTimeoutConn c (connTimeout (sc s))))
        as (Ho & Hsc & _ & Hcl & Hkeep & _ & Hx & _); [cbn; assumption|reflexivity|];
      destruct (OnStop s1) as [o s2 l2]
    end.
    cbn [outcome st effs sc open] in *. subst o. cbn [run ret st outcome effs].
    rewrite Hsc. repeat split.
    + apply Hkeep; [cbn; congruence|].
      apply elem_of_difference. split; [apply elem_of_union; now left|].
      intros H1. apply elem_of_singleton in H1. congruence.
    + exact Hcl.
    + intros x HIn. rewrite app_nil_r in HIn. apply in_app_or in HIn.
      destruct HIn as [HIn|HIn].
      * cbn in HIn.
        repeat (destruct HIn as [HIn|HIn];
                [first [discriminate HIn | injection HIn as <-; reflexivity]|]).
        contradiction.
      * rewrite (Hx x HIn). reflexivity.
  - rewrite (tick_reconnected s e n Hlive err Hping Htr c ncl Hr Hd Hh).
    cbv zeta. rewrite run_cons. cbn [call].
    match goal with |- context [OnStop ?s1] =>
      destruct (OnStop_started s1 (newTimeoutConn c (connTimeout (sc s))))
        as (Ho & Hsc & _ & Hcl & Hkeep & _ & Hx & _); [cbn; assumption|reflexivity|];
      destruct (OnStop s1) as [o s2 l2]
    end.
    cbn [outcome st effs sc open] in *. subst o. cbn [run ret st outcome effs].
    rewrite Hsc. repeat split.
    + apply Hkeep; [cbn; congruence|]. apply elem_of_union; now left.
    + exact Hcl.
    + intros x HIn. rewrite app_nil_r in HIn. apply in_app_or in HIn.
      destruct HIn as [HIn|HIn].
      * cbn in HIn.
        repeat (destruct HIn as [HIn|HIn]; [discriminate HIn|]).
        contradiction.
      * rewrite (Hx x HIn). reflexivity.
Qed.

Lemma replaced_connection_stays_open_witness :
  let r := run [DoSelect CaseTick (env_reconnect 2 8); DoOnStop] started in
  outcome r = Done tt /\ (1 ∈ open (st r)) /\ (2 ∉ open (st r)).
Proof.
  assert (Hne : errEOF <> ErrUnexpectedResponse) by discriminate.
  assert (Hfd : 2 <> 1) by discriminate.
  assert (Hopen : 1 ∈ open started) by (vm_compute; reflexivity).
  pose proof (replaced_connection_stays_open started (env_reconnect 2 8) 0
    (newTimeoutConn 1 3000000000%Z) errEOF 2
    eq_refl eq_refl eq_refl Hopen eq_refl Hne eq_refl eq_refl Hfd) as H.
  cbv zeta in H |- *. destruct H as (H1 & _ & H2 & H3 & _).
  repeat split; assumption.
Defined.

(** X7: after the goroutine has left on [ErrUnexpectedResponse], nothing
    stops the ticker any more: [OnStop] closes the channel and the
    connection, but the ticker created by [OnStart] is still running after
    it and after any further ticks or cancellations. *)
Theorem ticker_outlives_fatal_exit (s : State) (e : Env) (tc : timeoutConn)
    (t : Ticker) (later : list (SelectCase * Env)) :
  monitors s = 1 ->
  cancelPing (sc s) = Some ChanOpen ->
  conn (sc s) = Some tc ->
  pingTicker (sc s) = Some t ->
  Ping e (RemoteSignerClient (sc s)) = Some ErrUnexpectedResponse ->
  let r := run (DoSelect CaseTick e :: DoOnStop :: ticks later) s in
  outcome r = Done tt /\
  monitors (st r) = 0 /\
  cancelPing (sc (st r)) = Some ChanClosed /\
  (tc_conn tc ∉ open (st r)) /\
  pingTicker (sc (st r)) = Some t /\
  ~ In TickerStop (effs r).
Proof.
  intros Hlive Hcp Hconn Htk Hping r. subst r.
  rewrite run_cons. cbn [call]. rewrite (tick_fatal s e 0 Hlive Hping).
  rewrite run_cons. cbn [call].
  destruct (OnStop_started (with_monitors pred s) tc Hcp Hconn)
    as (Ho & Hsc & Hm & Hcl & _ & _ & _ & Hns).
  destruct (OnStop (with_monitors pred s)) as [o s1 l1].
  cbn [outcome st effs] in *. subst o.
  assert (H0 : monitors s1 = 0) by (rewrite Hm; cbn; rewrite Hlive; reflexivity).
  rewrite (run_ticks_no_goroutine later s1 H0).
  cbn [outcome st effs]. rewrite Hsc. repeat split; try assumption.
  intros HIn. rewrite app_nil_r in HIn. cbn in HIn.
  destruct HIn as [HIn|[HIn|HIn]]; try discriminate HIn. exact (Hns HIn).
Qed.

Lemma ticker_outlives_fatal_exit_witness :
  let r := run (DoSelect CaseTick env_fatal :: DoOnStop ::
                ticks [(CaseTick, env_ok 3 9); (CaseCancel, env_ok_cancel)]) started in
  outcome r = Done tt /\
  pingTicker (sc (st r)) = Some {| tk_period := 2000000000%Z; tk_running := true |}.
Proof.
  pose proof (ticker_outlives_fatal_exit started env_fatal
    (newTimeoutConn 1 3000000000%Z)
    {| tk_period := 2000000000%Z; tk_running := true |}
    [(CaseTick, env_ok 3 9); (CaseCancel, env_ok_cancel)]
    eq_refl eq_refl eq_refl eq_refl eq_refl) as H.
  cbv zeta in H |- *. destruct H as (H1 & _ & _ & _ & H2 & _).
  split; assumption.
Defined.

(** ** The mutex *)

Lemma mtx_trace_app m l1 l2 :
  mtx_trace m (l1 ++ l2) =
  match mtx_trace m l1 with
  | Some m' => mtx_trace m' l2
  | None => None
  end.
Proof.
  revert m. induction l1 as [|x l1 IH]; intros m; [reflexivity|].
  destruct x, m; cbn; try reflexivity; apply IH.
Qed.

Lemma writes_guarded_app m m' l1 l2 :
  mtx_trace m l1 = Some m' ->
  writes_guarded m (l1 ++ l2) = writes_guarded m l1 && writes_guarded m' l2.
Proof.
  revert m. induction l1 as [|x l1 IH]; intros m H.
  - cbn in H. injection H as <-. reflexivity.
  - destruct x, m; cbn in H |- *; try discriminate H;
      first [ apply IH; exact H | reflexivity ].
Qed.

Lemma call_mtx c s :
  mtx_trace MtxFree (effs (call c s)) = Some MtxFree /\
  writes_guarded MtxFree (effs (call c s)) = true.
Proof.
  destruct c as [e| |ev e].
  - rewrite call_OnStart_effs. go_cases; split; reflexivity.
  - cbn [call]. go_cases; split; reflexivity.
  - cbn [call]. destruct ev; go_cases; split; reflexivity.
Qed.

Lemma run_mtx cs s :
  mtx_trace MtxFree (effs (run cs s)) = Some MtxFree /\
  writes_guarded MtxFree (effs (run cs s)) = true.
Proof.
  revert s. induction cs as [|c cs IH]; intros s; [split; reflexivity|].
  rewrite run_cons. destruct (call_mtx c s) as [Hb Hw].
  destruct (call c s) as [[x|msg] s1 l1]; cbn [effs] in *; [|split; assumption].
  destruct (IH s1) as [Hb' Hw']. destruct (run cs s1) as [o s2 l2].
  cbn [effs] in *. split.
  - rewrite mtx_trace_app, Hb. exact Hb'.
  - rewrite (writes_guarded_app MtxFree MtxFree l1 l2 Hb), Hw, Hw'. reflexivity.
Qed.

(** X8: no method ever locks [connMtx] while it already holds it, and
    every method has released it when it returns or panics ([OnStart]
    panicking in [time.NewTicker] included); so the same holds of any
    sequence of calls and loop passes. *)
Theorem connMtx_always_released (cs : list Call) (s : State) (e : Env)
    (ev : SelectCase) :
  mtx_trace MtxFree (effs (connect e s)) = Some MtxFree /\
  mtx_trace MtxFree (effs (OnStart e s)) = Some MtxFree /\
  mtx_trace MtxFree (effs (OnStop s)) = Some MtxFree /\
  mtx_trace MtxFree (effs (monitorStep ev e s)) = Some MtxFree /\
  mtx_trace MtxFree (effs (run cs s)) = Some MtxFree.
Proof.
  split; [|split; [|split; [|split]]].
  - destruct (connect_cases s e) as [[x Hx]|[[x Hx]|[x Hx]]]; rewrite Hx; reflexivity.
  - rewrite <- call_OnStart_effs. apply call_mtx.
  - apply (call_mtx DoOnStop).
  - apply (call_mtx (DoSelect ev e)).
  - apply run_mtx.
Qed.

(** X9: in every method and along every sequence of calls and loop
    passes, [sc.conn] is assigned only while [connMtx] is held by [Lock],
    and [sc.RemoteSignerClient] is assigned only while it is held by
    [RLock]: the client is never written under the exclusive lock. *)
Theorem field_writes_lock_modes (cs : list Call) (s : State) (e : Env)
    (ev : SelectCase) :
  writes_guarded MtxFree (effs (OnStart e s)) = true /\
  writes_guarded MtxFree (effs (OnStop s)) = true /\
  writes_guarded MtxFree (effs (monitorStep ev e s)) = true /\
  writes_guarded MtxFree (effs (run cs s)) = true.
Proof.
  split; [|split; [|split]].
  - rewrite <- call_OnStart_effs. apply call_mtx.
  - apply (call_mtx DoOnStop).
  - apply (call_mtx (DoSelect ev e)).
  - apply run_mtx.
Qed.

(** ** What the methods leave alone *)

Lemma call_config c s : config_of (sc (st (call c s))) = config_of (sc s).
Proof.
  destruct c as [e| |ev e].
  - rewrite call_OnStart_st. go_cases; reflexivity.
  - cbn [call]. go_cases; reflexivity.
  - cbn [call]. destruct ev; go_cases; reflexivity.
Qed.

(** X10: the address, the two durations and the base service of an
    instance are set at construction (and by the options) only: no call
    of [OnStart] or [OnStop] and no pass of the keep-alive loop, in any
    number and order and however they end, changes any of them. *)
Theorem configuration_never_changes (cs : list Call) (s : State) :
  let v := sc (st (run cs s)) in
  addr v = addr (sc s) /\
  connTimeout v = connTimeout (sc s) /\
  connHeartbeat v = connHeartbeat (sc s) /\
  baseService v = baseService (sc s).
Proof.
  cbv zeta.
  assert (H : config_of (sc (st (run cs s))) = config_of (sc s)).
  { apply (run_invariant (fun _ => True)
             (fun s' => config_of (sc s') = config_of (sc s))).
    - intros c s' _ Hs'. rewrite call_config. exact Hs'.
    - apply Forall_forall. intros; exact I.
    - reflexivity. }
  unfold config_of in H. injection H as H1 H2 H3 H4. repeat split; assumption.
Qed.

(** X11: [OnStop] touches nothing of the receiver but [cancelPing]: it
    leaves [conn] and [RemoteSignerClient] set (pointing at the closed
    connection), does not stop the ticker, opens nothing and dials
    nothing; it panics only on a channel that is already closed.  On an
    instance that was never connected it only takes and releases the read
    lock. *)
Theorem OnStop_frame (s : State) :
  let r := OnStop s in
  conn (sc (st r)) = conn (sc s) /\
  RemoteSignerClient (sc (st r)) = RemoteSignerClient (sc s) /\
  pingTicker (sc (st r)) = pingTicker (sc s) /\
  monitors (st r) = monitors s /\
  (forall c, c ∈ open (st r) -> c ∈ open s) /\
  (forall a, ~ In (CallDial a) (effs r)) /\
  (cancelPing (sc s) <> Some ChanClosed -> outcome r = Done tt) /\
  (cancelPing (sc s) = None -> cancelPing (sc (st r)) = None) /\
  (cancelPing (sc s) = None -> conn (sc s) = None ->
   r = mkResult (Done tt) s [MtxRLock; MtxRUnlock]).
Proof.
  cbv zeta. go_cases; repeat split; try reflexivity; try congruence;
    try (intros; assumption);
    try (let H := fresh in intros ? H; apply elem_of_difference in H; tauto);
    try (let H := fresh in intros ? H; cbn in H; intuition discriminate).
Qed.

Lemma OnStop_frame_witness :
  OnStop (fresh sc0) = mkResult (Done tt) (fresh sc0) [MtxRLock; MtxRUnlock]
  /\ outcome (OnStop started) = Done tt.
Proof.
  pose proof (OnStop_frame (fresh sc0)) as H. cbv zeta in H.
  destruct H as (_ & _ & _ & _ & _ & _ & _ & _ & H).
  pose proof (OnStop_frame started) as H'. cbv zeta in H'.
  destruct H' as (_ & _ & _ & _ & _ & _ & H' & _).
  split; [apply H; reflexivity | apply H'; discriminate].
Defined.

Lemma call_ticker_period c s :
  is_OnStart c = false ->
  ticker_period (sc (st (call c s))) = ticker_period (sc s).
Proof.
  destruct c as [e| |ev e]; intros Hc; [discriminate Hc| |]; cbn [call].
  - go_cases; reflexivity.
  - unfold ticker_period. destruct ev; go_cases; reflexivity.
Qed.

(** X12: the heartbeat period is read once, by [OnStart], when it creates
    the ticker.  Setting [IPCValHeartbeat] on an instance afterwards
    changes [connHeartbeat] but not the period of the ticker, and nothing
    that follows short of another [OnStart] (loop passes, reconnects,
    [OnStop]) makes the ticker pick it up. *)
Theorem heartbeat_option_after_start (cs : list Call) (s : State)
    (period : Duration) :
  Forall (fun c => is_OnStart c = false) cs ->
  let r := run cs (with_sc (IPCValHeartbeat period) s) in
  connHeartbeat (sc (st r)) = period /\
  ticker_period (sc (st r)) = ticker_period (sc s).
Proof.
  intros Hcs r. subst r. split.
  - assert (H : config_of (sc (st (run cs (with_sc (IPCValHeartbeat period) s)))) =
                config_of (sc (with_sc (IPCValHeartbeat period) s))).
    { apply (run_invariant (fun _ => True)
               (fun s' => config_of (sc s') =
                          config_of (sc (with_sc (IPCValHeartbeat period) s)))).
      - intros c s' _ Hs'. rewrite call_config. exact Hs'.
      - apply Forall_forall. intros; exact I.
      - reflexivity. }
    unfold config_of in H. injection H as _ _ _ H. exact H.
  - apply (run_invariant (fun c => is_OnStart c = false)
             (fun s' => ticker_period (sc s') = ticker_period (sc s))).
    + intros c s' Hc Hs'. rewrite (call_ticker_period c s' Hc). exact Hs'.
    + exact Hcs.
    + reflexivity.
Qed.

Lemma heartbeat_option_after_start_witness :
  let r := run [DoSelect CaseTick (env_reconnect 2 8); DoSelect CaseTick (env_ok 2 8)]
             (with_sc (IPCValHeartbeat 50000000%Z) started) in
  connHeartbeat (sc (st r)) = 50000000%Z /\
  ticker_period (sc (st r)) = Some 2000000000%Z.
Proof.
  pose proof (heartbeat_option_after_start
    [DoSelect CaseTick (env_reconnect 2 8); DoSelect CaseTick (env_ok 2 8)]
    started 50000000%Z) as H.
  cbv zeta in H |- *. apply H.
  repeat constructor.
Defined.
